(** * on-policy / MPE rendering: a shallow embedding of [rendering.py] and of
    the scenario loader [scenarios/__init__.py]

    Conventions of the embedding.
    - Python floats are idealised as real numbers ([R]); comparisons on them
      are the decidable comparisons of the reals.
    - Objects are records; a method that mutates [self] is a function that
      returns the new [self]; a method that may raise runs in the
      state-and-exception monad [M] below, where a raised exception keeps the
      state reached so far (as a Python exception does).
    - matplotlib, numpy, os.path and importlib are libraries outside the
      repository.  The few operations of them that the code calls are modelled
      after their documented behaviour ([mtransforms], [np]) or taken as an
      interface ([AggBackend], [PyRuntime]). *)

From Stdlib Require Import Reals Lra List Bool String ZArith Lia.
From Stdlib Require Import Strings.Byte.
From stdpp Require Import base gmap strings.
Import ListNotations.
Open Scope R_scope.
Set Warnings "-register-all".

(** ** Float comparisons used by the code *)

(* [x != y] *)
Definition Rneb (x y : R) : bool := if Req_dec_T x y then false else true.

(* [x > y] *)
Definition Rgtb (x y : R) : bool := if Rgt_dec x y then true else false.

(** ** Exceptions and the state-and-exception monad *)

Inductive Exn : Type :=
| NotImplementedError
| IndexError
| ValueError
| AssertionError
| TypeError
| FileNotFoundError (pathname : string)
| ImportError (msg : string)
| ModuleError (e : string).

Definition M (St A : Type) : Type := St -> (Exn + A) * St.

Definition ret {St A} (a : A) : M St A := fun s => (inr a, s).

Definition bind {St A B} (c : M St A) (k : A -> M St B) : M St B :=
  fun s => match c s with
           | (inl e, s') => (inl e, s')
           | (inr a, s') => k a s'
           end.

Definition raise {St A} (e : Exn) : M St A := fun s => (inl e, s).

Definition get {St} : M St St := fun s => (inr s, s).

Definition modify {St} (f : St -> St) : M St unit := fun s => (inr tt, f s).

(* the [assert] statement *)
Definition assert_ {St} (b : bool) : M St unit :=
  if b then ret tt else raise AssertionError.

Declare Scope py_scope.
Delimit Scope py_scope with py.
Notation "x <- c ;; k" := (bind c (fun x => k))
  (at level 100, c at next level, right associativity) : py_scope.
Notation "c ;;; k" := (bind c (fun _ => k))
  (at level 100, right associativity) : py_scope.

(** ** matplotlib.transforms.Affine2D

    Library code, modelled after matplotlib: an [Affine2D] holds the first
    two rows [(xx, xy, x0)] and [(yx, yy, y0)] of a 3x3 matrix; [scale],
    [rotate] and [translate] multiply the held matrix on the left by the
    elementary matrix; [A + B] is the transform "A, then B", whose matrix is
    [B.A]. *)

Module mtransforms.

Record Affine2D : Type := mkAffine2D
  { xx : R; xy : R; x0 : R;
    yx : R; yy : R; y0 : R }.

(* [Affine2D()] *)
Definition Affine2D_init : Affine2D := mkAffine2D 1 0 0 0 1 0.

Definition scale (t : Affine2D) (sx sy : R) : Affine2D :=
  mkAffine2D (xx t * sx) (xy t * sx) (x0 t * sx)
             (yx t * sy) (yy t * sy) (y0 t * sy).

Definition rotate (t : Affine2D) (theta : R) : Affine2D :=
  let a := cos theta in
  let b := sin theta in
  mkAffine2D (a * xx t - b * yx t) (a * xy t - b * yy t) (a * x0 t - b * y0 t)
             (b * xx t + a * yx t) (b * xy t + a * yy t) (b * x0 t + a * y0 t).

Definition translate (t : Affine2D) (tx ty : R) : Affine2D :=
  mkAffine2D (xx t) (xy t) (x0 t + tx)
             (yx t) (yy t) (y0 t + ty).

(* [a + b]: the composite with matrix [dot(b, a)] *)
Definition add (a b : Affine2D) : Affine2D :=
  mkAffine2D (xx b * xx a + xy b * yx a)
             (xx b * xy a + xy b * yy a)
             (xx b * x0 a + xy b * y0 a + x0 b)
             (yx b * xx a + yy b * yx a)
             (yx b * xy a + yy b * yy a)
             (yx b * x0 a + yy b * y0 a + y0 b).

Definition transform_point (t : Affine2D) (p : R * R) : R * R :=
  (xx t * fst p + xy t * snd p + x0 t,
   yx t * fst p + yy t * snd p + y0 t).

(* [t.transform(points)] on an N x 2 array *)
Definition transform (t : Affine2D) (pts : list (R * R)) : list (R * R) :=
  map (transform_point t) pts.

End mtransforms.

Abbreviation Affine2D := mtransforms.Affine2D.
Infix "+@" := mtransforms.add (at level 50, left associativity).

(** ** Attributes *)

Definition RGBA : Type := (R * R * R * R)%type.

Definition _clamp01 (x : R) : R := Rmax 0 (Rmin 1 x).

Record Color : Type := mkColor { vec4 : RGBA }.

Definition Color_init (v : RGBA) : Color :=
  let '(r, g, b, a) := v in
  mkColor (_clamp01 r, _clamp01 g, _clamp01 b, _clamp01 a).

Record LineWidth : Type := mkLineWidth { stroke : R }.

Definition LineWidth_init (x : R) : LineWidth := mkLineWidth x.

Record Transform : Type := mkTransform
  { translation : R * R;
    rotation : R;
    scale : R * R }.

Definition set_translation (self : Transform) (newx newy : R) : Transform :=
  mkTransform (newx, newy) (rotation self) (scale self).

Definition set_rotation (self : Transform) (new : R) : Transform :=
  mkTransform (translation self) new (scale self).

Definition set_scale (self : Transform) (newx newy : R) : Transform :=
  mkTransform (translation self) (rotation self) (newx, newy).

(* [Transform(translation, rotation, scale)]: the three setters in turn *)
Definition Transform_init (tr : R * R) (rot : R) (sc : R * R) : Transform :=
  mkTransform (fst tr, snd tr) rot (fst sc, snd sc).

(* [Transform()] with the default arguments *)
Definition Transform_default : Transform := Transform_init (0, 0) 0 (1, 1).

Definition as_affine (self : Transform) : Affine2D :=
  let t := mtransforms.Affine2D_init in
  let '(tx, ty) := translation self in
  let '(sx, sy) := scale self in
  let t := if Rneb sx 1 || Rneb sy 1 then mtransforms.scale t sx sy else t in
  let t := if Rneb (rotation self) 0 then mtransforms.rotate t (rotation self) else t in
  let t := if Rneb tx 0 || Rneb ty 0 then mtransforms.translate t tx ty else t in
  t.

Inductive Attr : Type :=
| AColor (c : Color)
| ALineWidth (l : LineWidth)
| ATransform (t : Transform).

(* [isinstance(a, Color)] *)
Definition is_Color (a : Attr) : bool :=
  match a with AColor _ => true | _ => false end.

(** ** Geom and its subclasses *)

(* the fields set by [Geom.__init__] *)
Record GeomState : Type := mkGeomState
  { _color : Color;
    attrs : list Attr;
    _linewidth : LineWidth }.

Definition Geom_init : GeomState :=
  let c := Color_init (0, 0, 0, 1) in
  mkGeomState c [AColor c] (LineWidth_init 1).

Inductive Geom : Type :=
| Geom_ (s : GeomState)
| FilledPolygon (s : GeomState) (v : list (R * R))
| PolyLine (s : GeomState) (v : list (R * R)) (close : bool)
| Circle (s : GeomState) (radius : R)
| Compound (s : GeomState) (gs : list Geom).

Definition state (g : Geom) : GeomState :=
  match g with
  | Geom_ s | FilledPolygon s _ | PolyLine s _ _ | Circle s _ | Compound s _ => s
  end.

Definition with_state (f : GeomState -> GeomState) (g : Geom) : Geom :=
  match g with
  | Geom_ s => Geom_ (f s)
  | FilledPolygon s v => FilledPolygon (f s) v
  | PolyLine s v c => PolyLine (f s) v c
  | Circle s r => Circle (f s) r
  | Compound s gs => Compound (f s) gs
  end.

Definition add_attr (attr : Attr) (self : Geom) : Geom :=
  with_state (fun s => mkGeomState (_color s) (attrs s ++ [attr]) (_linewidth s)) self.

Definition set_color (r g b alpha : R) (self : Geom) : Geom :=
  with_state (fun s =>
    let c := Color_init (r, g, b, alpha) in
    mkGeomState c
      (List.filter (fun a => negb (is_Color a)) (attrs s) ++ [AColor c])
      (_linewidth s)) self.

Definition set_linewidth (x : R) (self : Geom) : Geom :=
  with_state (fun s => mkGeomState (_color s) (attrs s) (LineWidth_init x)) self.

Definition _collect_transform (self : GeomState) : Affine2D :=
  fold_left
    (fun affine attr =>
       match attr with
       | ATransform t => affine +@ as_affine t
       | _ => affine
       end)
    (rev (attrs self)) mtransforms.Affine2D_init.

Definition _get_colors (self : GeomState) : RGBA * RGBA :=
  let '(r, g, b, a) := vec4 (_color self) in
  ((r, g, b, a), (0.5 * r, 0.5 * g, 0.5 * b, 0.5 * a)).

Definition _get_linewidth (self : GeomState) : R := stroke (_linewidth self).

(** ** numpy arrays

    Library code.  An N x 2 float array is a list of points; a Python list
    with no point in it converts to the one-dimensional empty array, on which
    two-dimensional indexing raises [IndexError].  A three-dimensional uint8
    array is a list of rows of pixels of bytes. *)

Module np.

(* [v[0]] *)
Definition first_row (v : list (R * R)) : Exn + (R * R) :=
  match v with
  | [] => inl IndexError
  | p :: _ => inr p
  end.

(* [np.vstack([v, row])]: a new array, [v] followed by [row] *)
Definition vstack (v : list (R * R)) (row : R * R) : list (R * R) := v ++ [row].

(* [pts[:, 0]] and [pts[:, 1]] *)
Definition column0 (pts : list (R * R)) : Exn + list R :=
  match pts with
  | [] => inl IndexError
  | _ => inr (map fst pts)
  end.

Definition column1 (pts : list (R * R)) : Exn + list R :=
  match pts with
  | [] => inl IndexError
  | _ => inr (map snd pts)
  end.

(* [n] consecutive pieces of [k] elements *)
Fixpoint chunks {A : Type} (k n : nat) (l : list A) : list (list A) :=
  match n with
  | O => []
  | S n' => firstn k l :: chunks k n' (skipn k l)
  end.

(* [buf.reshape((h, w, c))] of a one-dimensional array *)
Definition reshape3 {A : Type} (buf : list A) (h w c : nat)
  : Exn + list (list (list A)) :=
  if Nat.eqb (length buf) (h * w * c)
  then inr (map (chunks c w) (chunks (w * c) h buf))
  else inl ValueError.

(* [arr[:, :, :k]] *)
Definition take_channels {A : Type} (k : nat) (arr : list (list (list A)))
  : list (list (list A)) :=
  map (map (firstn k)) arr.

(* [arr.shape == (h, w, c)] *)
Definition has_shape {A : Type} (arr : list (list (list A))) (h w c : nat) : Prop :=
  length arr = h /\
  Forall (fun row => length row = w /\ Forall (fun px => length px = c) row) arr.

End np.

(** ** Matplotlib artists and axes (library objects, as far as the code
    sets them) *)

Inductive Artist : Type :=
| MplPolygon (xy : list (R * R)) (closed : bool)
    (facecolor edgecolor : RGBA) (linewidth : R) (transform : Affine2D)
| MplCircle (center : R * R) (radius : R)
    (facecolor edgecolor : RGBA) (linewidth : R) (transform : Affine2D)
| Line2D (xdata ydata : list R) (linewidth : R) (color : RGBA).

(* [patch.set_transform(t + ax.transData)]: [t] is recorded, the data-to-pixel
   map [ax.transData] of the axes follows it *)
Definition set_transform (t : Affine2D) (patch : Artist) : Artist :=
  match patch with
  | MplPolygon xy c f e lw _ => MplPolygon xy c f e lw t
  | MplCircle ctr r f e lw _ => MplCircle ctr r f e lw t
  | Line2D _ _ _ _ => patch
  end.

(* [line.set_data(xs, ys)] *)
Definition set_data (xs ys : list R) (line : Artist) : Artist :=
  match line with
  | Line2D _ _ lw c => Line2D xs ys lw c
  | _ => line
  end.

Record Axes : Type := mkAxes
  { facecolor_ : R * R * R;
    xlim : R * R;
    ylim : R * R;
    aspect_equal : bool;
    axison : bool;
    artists : list Artist }.

(* a new or cleared axes *)
Definition Axes_clear : Axes := mkAxes (1, 1, 1) (0, 1) (0, 1) false true [].

(* [ax.add_patch(a)] and [ax.add_line(a)] *)
Definition add_artist (a : Artist) : M Axes unit :=
  modify (fun ax => mkAxes (facecolor_ ax) (xlim ax) (ylim ax)
                           (aspect_equal ax) (axison ax) (artists ax ++ [a])).

(* a computation without state, run inside [M] *)
Definition lift {St A} (r : Exn + A) : M St A :=
  match r with
  | inl e => raise e
  | inr a => ret a
  end.

(** ** The [draw] methods *)

Open Scope py_scope.

(* [MplPolygon(xy, closed=..., ...)]: matplotlib's Polygon takes an N x 2
   array and raises [ValueError] on the one-dimensional empty array that an
   empty vertex list converts to *)
Definition MplPolygon_init (xy : list (R * R)) (closed : bool)
  (facecolor edgecolor : RGBA) (linewidth : R) : Exn + Artist :=
  match xy with
  | [] => inl ValueError
  | _ => inr (MplPolygon xy closed facecolor edgecolor linewidth
                mtransforms.Affine2D_init)
  end.

Definition FilledPolygon_draw (s : GeomState) (v : list (R * R)) : M Axes unit :=
  let '(face, edge) := _get_colors s in
  patch <- lift (MplPolygon_init v true face edge (_get_linewidth s)) ;;
  let patch := set_transform (_collect_transform s) patch in
  add_artist patch.

Definition PolyLine_draw (s : GeomState) (v : list (R * R)) (close : bool) : M Axes unit :=
  let '(face, edge) := _get_colors s in
  pts <- (if close
          then (v0 <- lift (np.first_row v) ;; ret (np.vstack v v0))
          else ret v) ;;
  xs <- lift (np.column0 pts) ;;
  ys <- lift (np.column1 pts) ;;
  let line := Line2D xs ys (_get_linewidth s) edge in
  let aff := _collect_transform s in
  let pts_t := mtransforms.transform aff pts in
  xs_t <- lift (np.column0 pts_t) ;;
  ys_t <- lift (np.column1 pts_t) ;;
  let line := set_data xs_t ys_t line in
  add_artist line.

Definition Circle_draw (s : GeomState) (radius : R) : M Axes unit :=
  let '(face, edge) := _get_colors s in
  let patch := MplCircle (0, 0) radius face edge (_get_linewidth s) mtransforms.Affine2D_init in
  let patch := set_transform (_collect_transform s) patch in
  add_artist patch.

Section ForEach.

Context {A St : Type} (f : A -> St -> (Exn + unit) * A * St).

(* [for x in l: x.f(s)], where the call may change [x] and [s] and may raise *)
Fixpoint for_each (l : list A) (s : St) : (Exn + unit) * list A * St :=
  match l with
  | [] => (inr tt, [], s)
  | x :: t =>
      match f x s with
      | (inl e, x', s') => (inl e, x' :: t, s')
      | (inr _, x', s') =>
          let '(r, t', s'') := for_each t s' in (r, x' :: t', s'')
      end
  end.

End ForEach.

(* [self.draw(ax)], dispatched on the class of [self]; the result carries
   [self] and [ax] as the call leaves them *)
Fixpoint draw (self : Geom) (ax : Axes) : (Exn + unit) * Geom * Axes :=
  match self with
  | Geom_ s => (inl NotImplementedError, self, ax)
  | FilledPolygon s v =>
      let '(r, ax') := FilledPolygon_draw s v ax in (r, self, ax')
  | PolyLine s v close =>
      let '(r, ax') := PolyLine_draw s v close ax in (r, self, ax')
  | Circle s radius =>
      let '(r, ax') := Circle_draw s radius ax in (r, self, ax')
  | Compound s gs =>
      let '(r, gs', ax') := for_each draw gs ax in (r, Compound s gs', ax')
  end.

(** ** Factory functions *)

Definition make_circle (radius : R) (res : Z) (filled : bool) : Geom :=
  Circle Geom_init radius.

Definition make_polygon (v : list (R * R)) (filled : bool) : Geom :=
  if filled then FilledPolygon Geom_init v else PolyLine Geom_init v true.

Definition make_polyline (v : list (R * R)) : Geom :=
  PolyLine Geom_init v false.

Definition make_capsule (length width : R) : Geom :=
  let half_w := width / 2 in
  let body := make_polygon
                [(0, - half_w); (0, half_w); (length, half_w); (length, - half_w)]
                true in
  let cap0 := make_circle half_w 30 true in
  let cap1 := make_circle half_w 30 true in
  let t1 := Transform_init (length, 0) 0 (1, 1) in
  let cap1 := add_attr (ATransform t1) cap1 in
  Compound Geom_init [body; cap0; cap1].

(** ** The Agg canvas

    Library object.  After [canvas.draw()] the canvas holds the rasterized
    figure; [tostring_argb] gives its pixels as bytes, row by row from the top
    row, four bytes A, R, G, B per pixel. *)

Record Canvas : Type := mkCanvas
  { get_width_height : nat * nat;
    tostring_argb : list byte }.

Class AggBackend : Type :=
  { (* [FigureCanvas(Figure(figsize=(width / dpi, height / dpi), dpi=dpi))] *)
    FigureCanvas : Z -> Z -> Z -> Canvas;
    (* [canvas.draw()] of the figure that holds the axes *)
    canvas_draw : Canvas -> Axes -> Canvas }.

(** ** Viewer *)

Definition Bounds : Type := (R * R * R * R)%type.

Record Viewer : Type := mkViewer
  { width : Z;
    height : Z;
    dpi : Z;
    canvas : Canvas;
    ax : Axes;
    geoms : list Geom;
    onetime_geoms : list Geom;
    _bounds : Bounds }.

Definition with_canvas (c : Canvas) (v : Viewer) : Viewer :=
  mkViewer (width v) (height v) (dpi v) c (ax v) (geoms v) (onetime_geoms v) (_bounds v).

Definition with_ax (a : Axes) (v : Viewer) : Viewer :=
  mkViewer (width v) (height v) (dpi v) (canvas v) a (geoms v) (onetime_geoms v) (_bounds v).

Definition with_geoms (gs : list Geom) (v : Viewer) : Viewer :=
  mkViewer (width v) (height v) (dpi v) (canvas v) (ax v) gs (onetime_geoms v) (_bounds v).

Definition with_onetime_geoms (gs : list Geom) (v : Viewer) : Viewer :=
  mkViewer (width v) (height v) (dpi v) (canvas v) (ax v) (geoms v) gs (_bounds v).

Definition with_bounds (b : Bounds) (v : Viewer) : Viewer :=
  mkViewer (width v) (height v) (dpi v) (canvas v) (ax v) (geoms v) (onetime_geoms v) b.

(* the axes setters that the viewer calls *)
Definition set_facecolor (c : R * R * R) (a : Axes) : Axes :=
  mkAxes c (xlim a) (ylim a) (aspect_equal a) (axison a) (artists a).

Definition set_xlim (left right : R) (a : Axes) : Axes :=
  mkAxes (facecolor_ a) (left, right) (ylim a) (aspect_equal a) (axison a) (artists a).

Definition set_ylim (bottom top : R) (a : Axes) : Axes :=
  mkAxes (facecolor_ a) (xlim a) (bottom, top) (aspect_equal a) (axison a) (artists a).

Definition set_aspect_equal (a : Axes) : Axes :=
  mkAxes (facecolor_ a) (xlim a) (ylim a) true (axison a) (artists a).

Definition axis_off (a : Axes) : Axes :=
  mkAxes (facecolor_ a) (xlim a) (ylim a) (aspect_equal a) false (artists a).

Definition Viewer_init `{AggBackend} (width height dpi : Z) : Viewer :=
  mkViewer width height dpi
    (FigureCanvas width height dpi)
    (axis_off (set_facecolor (1, 1, 1) Axes_clear))
    [] []
    (-1, 1, -1, 1).

Definition set_bounds (left right bottom top : R) : M Viewer unit :=
  assert_ (Rgtb right left && Rgtb top bottom) ;;;
  modify (with_bounds (left, right, bottom, top)).

Definition add_geom (geom : Geom) : M Viewer unit :=
  modify (fun v => with_geoms (geoms v ++ [geom]) v).

Definition add_onetime (geom : Geom) : M Viewer unit :=
  modify (fun v => with_onetime_geoms (onetime_geoms v ++ [geom]) v).

Definition _prepare_axes : M Viewer unit :=
  v <- get ;;
  let '(left_, right_, bottom, top) := _bounds v in
  modify (with_ax Axes_clear) ;;;
  modify (fun v => with_ax (set_facecolor (1, 1, 1) (ax v)) v) ;;;
  modify (fun v => with_ax (set_xlim left_ right_ (ax v)) v) ;;;
  modify (fun v => with_ax (set_ylim bottom top (ax v)) v) ;;;
  modify (fun v => with_ax (set_aspect_equal (ax v)) v) ;;;
  modify (fun v => with_ax (axis_off (ax v)) v).

(* [for g in self.geoms: g.draw(self.ax)] *)
Definition draw_geoms : M Viewer unit :=
  fun v =>
    let '(r, gs', ax') := for_each draw (geoms v) (ax v) in
    (r, with_ax ax' (with_geoms gs' v)).

(* [for g in self.onetime_geoms: g.draw(self.ax)] *)
Definition draw_onetime_geoms : M Viewer unit :=
  fun v =>
    let '(r, gs', ax') := for_each draw (onetime_geoms v) (ax v) in
    (r, with_ax ax' (with_onetime_geoms gs' v)).

Definition PixelArray : Type := list (list (list byte)).

Definition render `{AggBackend} (return_rgb_array : bool)
  : M Viewer (option PixelArray) :=
  _prepare_axes ;;;
  draw_geoms ;;;
  draw_onetime_geoms ;;;
  modify (with_onetime_geoms []) ;;;
  modify (fun v => with_canvas (canvas_draw (canvas v) (ax v)) v) ;;;
  if return_rgb_array then
    v <- get ;;
    let '(w, h) := get_width_height (canvas v) in
    let buf := tostring_argb (canvas v) in
    arr4 <- lift (np.reshape3 buf h w 4) ;;
    let arr := np.take_channels 3 arr4 in
    ret (Some arr)
  else
    ret None.

Definition get_array `{AggBackend} : M Viewer (option PixelArray) :=
  render true.

(** ** Keyword attributes of the convenience helpers *)

Inductive PyVal : Type :=
| VFloat (x : R)
| VTuple (xs : list R).

(* [geom.set_color] on the unpacked tuple: three or four positional arguments *)
Definition set_color_star (val : PyVal) (geom : Geom) : Exn + Geom :=
  match val with
  | VTuple [r; g; b] => inr (set_color r g b 1 geom)
  | VTuple [r; g; b; alpha] => inr (set_color r g b alpha geom)
  | _ => inl TypeError
  end.

(* [geom.set_linewidth(val)]: [LineWidth] converts its argument with [float] *)
Definition set_linewidth_val (val : PyVal) (geom : Geom) : Exn + Geom :=
  match val with
  | VFloat x => inr (set_linewidth x geom)
  | VTuple _ => inl TypeError
  end.

Definition _add_attrs (geom : Geom) (attrs : gmap string PyVal) : Exn + Geom :=
  match (match attrs !! "color"%string with
         | Some c => set_color_star c geom
         | None => inr geom
         end) with
  | inl e => inl e
  | inr geom =>
      match attrs !! "linewidth"%string with
      | Some x => set_linewidth_val x geom
      | None => inr geom
      end
  end.

Definition draw_circle (radius : R) (res : Z) (filled : bool)
  (attrs : gmap string PyVal) : M Viewer Geom :=
  let geom := make_circle radius res filled in
  geom <- lift (_add_attrs geom attrs) ;;
  add_onetime geom ;;;
  ret geom.

Definition draw_polygon (v : list (R * R)) (filled : bool)
  (attrs : gmap string PyVal) : M Viewer Geom :=
  let geom := make_polygon v filled in
  geom <- lift (_add_attrs geom attrs) ;;
  add_onetime geom ;;;
  ret geom.

Definition draw_polyline (v : list (R * R))
  (attrs : gmap string PyVal) : M Viewer Geom :=
  let geom := make_polyline v in
  geom <- lift (_add_attrs geom attrs) ;;
  add_onetime geom ;;;
  ret geom.

Definition draw_line (start end_ : R * R)
  (attrs : gmap string PyVal) : M Viewer Geom :=
  let geom := PolyLine Geom_init [start; end_] false in
  geom <- lift (_add_attrs geom attrs) ;;
  add_onetime geom ;;;
  ret geom.

(** ** The scenario loader, [scenarios/__init__.py]

    [os.path], [uuid] and [importlib] are the interpreter's: the loader is
    modelled over an interface of the calls it makes. *)

Record Loader : Type := mkLoader
  { loader_name : string;
    loader_path : string }.

Record ModuleSpec : Type := mkModuleSpec
  { spec_name : string;
    spec_origin : string;
    loader : option Loader }.

(* a module object: its name and the names it defines (values left opaque,
   as their printed form) *)
Record PyModule : Type := mkPyModule
  { module_name_ : string;
    namespace : gmap string string }.

Class PyRuntime : Type :=
  { (* [osp.dirname(__file__)] *)
    here : string;
    osp_join : string -> string -> string;
    osp_isfile : string -> bool;
    (* [osp.splitext(osp.basename(name))[0]] *)
    osp_stem : string -> string;
    (* the [n]-th value of [uuid4().hex] *)
    uuid4_hex : nat -> string;
    spec_from_file_location : string -> string -> option ModuleSpec;
    module_from_spec : ModuleSpec -> PyModule;
    (* [loader.exec_module(module)]: the module as the execution leaves it,
       and the exception the unit raised, if any.  What the executed unit
       may itself do to [sys.modules] (importing, removing entries) or to
       [uuid4] is outside this interface *)
    exec_module : Loader -> PyModule -> (Exn + unit) * PyModule }.

Record Interp : Type := mkInterp
  { sys_modules : gmap string PyModule;
    uuid_calls : nat }.

Definition uuid4 `{PyRuntime} : M Interp string :=
  fun st => (inr (uuid4_hex (uuid_calls st)),
             mkInterp (sys_modules st) (S (uuid_calls st))).

(* [sys.modules[name] = module] *)
Definition register (name : string) (module : PyModule) : M Interp unit :=
  modify (fun st => mkInterp (<[name := module]> (sys_modules st)) (uuid_calls st)).

(* [spec.loader.exec_module(module)]: the call writes no entry of
   [sys.modules]; the module object is shared with the entry that [register]
   made, so that entry, where there is one, shows what the execution did to
   the module *)
Definition run_module `{PyRuntime} (l : Loader) (name : string) (module : PyModule)
  : M Interp PyModule :=
  fun st =>
    let '(r, module') := exec_module l module in
    let st' := mkInterp (alter (fun _ => module') name (sys_modules st))
                 (uuid_calls st) in
    match r with
    | inl e => (inl e, st')
    | inr _ => (inr module', st')
    end.

Definition load `{PyRuntime} (name : string) : M Interp PyModule :=
  let pathname := osp_join here name in
  if negb (osp_isfile pathname) then raise (FileNotFoundError pathname)
  else
    u <- uuid4 ;;
    let module_name := ("_dynamic_" ++ osp_stem name ++ "_" ++ u)%string in
    match spec_from_file_location module_name pathname with
    | None => raise (ImportError ("Cannot create spec for " ++ pathname))
    | Some spec =>
        match loader spec with
        | None => raise (ImportError ("Cannot create spec for " ++ pathname))
        | Some l =>
            let module := module_from_spec spec in
            register module_name module ;;;
            run_module l module_name module
        end
    end.

Close Scope py_scope.

(** * Specification-side definitions

    What the specification's words say, to be compared with the code. *)

(** ** Point maps of a single transform *)

Definition scale_point (sx sy : R) (p : R * R) : R * R :=
  (sx * fst p, sy * snd p).

Definition rotate_point (theta : R) (p : R * R) : R * R :=
  (cos theta * fst p - sin theta * snd p,
   sin theta * fst p + cos theta * snd p).

Definition translate_point (tx ty : R) (p : R * R) : R * R :=
  (fst p + tx, snd p + ty).

(* scale, then rotate about the origin, then translate *)
Definition resolve_point (T : Transform) (p : R * R) : R * R :=
  translate_point (fst (translation T)) (snd (translation T))
    (rotate_point (rotation T)
       (scale_point (fst (scale T)) (snd (scale T)) p)).

(* the matrix built with no component omitted *)
Definition as_affine_all (T : Transform) : Affine2D :=
  mtransforms.translate
    (mtransforms.rotate
       (mtransforms.scale mtransforms.Affine2D_init (fst (scale T)) (snd (scale T)))
       (rotation T))
    (fst (translation T)) (snd (translation T)).

(** ** Effective transform of a Drawable *)

(* the transforms among the attributes, in attachment order *)
Fixpoint transforms_of (l : list Attr) : list Transform :=
  match l with
  | [] => []
  | ATransform t :: l' => t :: transforms_of l'
  | _ :: l' => transforms_of l'
  end.

(* the first transform of the list is applied first, the last one last:
   for [T1; T2; T3] the map is resolve(T3) o resolve(T2) o resolve(T1) *)
Fixpoint apply_in_order (ts : list Transform) (p : R * R) : R * R :=
  match ts with
  | [] => p
  | t :: ts' => apply_in_order ts' (resolve_point t p)
  end.

(* the last transform of the list is applied first, the first one last:
   for [T1; T2; T3] the map is resolve(T1) o resolve(T2) o resolve(T3) *)
Fixpoint apply_last_first (ts : list Transform) (p : R * R) : R * R :=
  match ts with
  | [] => p
  | t :: ts' => resolve_point t (apply_last_first ts' p)
  end.

(* where the drawing puts a local point of the Drawable, in data space *)
Definition effective_point (g : Geom) (p : R * R) : R * R :=
  mtransforms.transform_point (_collect_transform (state g)) p.

(** ** The colour invariant of a Drawable *)

(* the Color attribute attached last, if any *)
Definition last_color (l : list Attr) : option Color :=
  fold_left (fun acc a => match a with AColor c => Some c | _ => acc end) l None.

Definition color_invariant (g : Geom) : Prop :=
  last_color (attrs (state g)) = Some (_color (state g)).

Definition count_colors (l : list Attr) : nat :=
  length (List.filter is_Color l).

(* the operations of the Drawable API that change a Drawable *)
Inductive GeomOp : Type :=
| OpAddAttr (attr : Attr)
| OpSetColor (r g b alpha : R)
| OpSetLinewidth (x : R).

Definition apply_op (op : GeomOp) (g : Geom) : Geom :=
  match op with
  | OpAddAttr attr => add_attr attr g
  | OpSetColor r g' b alpha => set_color r g' b alpha g
  | OpSetLinewidth x => set_linewidth x g
  end.

(** ** What a drawing shows *)

(* the artists that a call added to the axes *)
Definition new_artists (before after : Axes) : list Artist :=
  skipn (length (artists before)) (artists after).

(* where a circle patch puts its centre, in data space *)
Definition placed_center (a : Artist) : option (R * R) :=
  match a with
  | MplCircle ctr _ _ _ _ t => Some (mtransforms.transform_point t ctr)
  | _ => None
  end.

(* a transform attached to a compound contributes to its drawing when, on
   some axes, the drawing with it differs from the drawing without it *)
Definition compound_transform_contributes (c : Geom) (t : Transform) : Prop :=
  exists a : Axes,
    artists (snd (draw (add_attr (ATransform t) c) a)) <> artists (snd (draw c a)).

(* the segments that a line through the given points rasterizes *)
Definition segments_of (pts : list (R * R)) : list ((R * R) * (R * R)) :=
  combine pts (tl pts).

Definition segments (a : Artist) : list ((R * R) * (R * R)) :=
  match a with
  | Line2D xs ys _ _ => segments_of (combine xs ys)
  | _ => []
  end.

Definition segment_count (l : list Artist) : nat :=
  length (concat (map segments l)).

(* the artists that a Drawable draws, on an axes of its own *)
Definition own_artists (g : Geom) : list Artist :=
  new_artists Axes_clear (snd (draw g Axes_clear)).

(** ** Frames of a viewer *)

(* a Drawable whose [draw] is implemented and whose vertex list, if it has
   one, holds a point *)
Fixpoint drawable (g : Geom) : bool :=
  match g with
  | Geom_ _ => false
  | FilledPolygon _ v => match v with [] => false | _ => true end
  | PolyLine _ v _ => match v with [] => false | _ => true end
  | Circle _ _ => true
  | Compound _ gs => forallb drawable gs
  end.

(* the artists on the axes once the given Drawables are drawn on it *)
Definition drawn_by (l : list Geom) (a : Axes) : list Artist :=
  artists (snd (for_each draw l a)).

(* the axes of a viewer as [_prepare_axes] leaves it *)
Definition prepared_axes (v : Viewer) : Axes :=
  ax (snd (_prepare_axes v)).

(* the viewer after each of a series of [render] calls *)
Fixpoint render_seq `{AggBackend} (flags : list bool) (v : Viewer) : list Viewer :=
  match flags with
  | [] => []
  | f :: fs => let v' := snd (render f v) in v' :: render_seq fs v'
  end.

(** ** Pixels *)

(* the bytes of pixel (i, j) of a three-dimensional array *)
Definition pixel_at {A : Type} (arr : list (list (list A))) (i j : nat)
  : option (list A) :=
  match nth_error arr i with
  | Some row => nth_error row j
  | None => None
  end.

(* the four bytes A, R, G, B of pixel (i, j) in an ARGB byte string of
   [w] pixels per row *)
Definition argb_at (buf : list byte) (w i j : nat) : list byte :=
  firstn 4 (skipn ((i * w + j) * 4) buf).

(** ** Auxiliary definitions of the proofs *)

(* the axes with more artists on it *)
Definition add_all (l : list Artist) (a : Axes) : Axes :=
  mkAxes (facecolor_ a) (xlim a) (ylim a) (aspect_equal a) (axison a) (artists a ++ l).

(* the patch and the line that the leaf classes build *)
Definition polygon_patch (s : GeomState) (v : list (R * R)) : Artist :=
  MplPolygon v true (fst (_get_colors s)) (snd (_get_colors s))
    (_get_linewidth s) (_collect_transform s).

Definition circle_patch (s : GeomState) (radius : R) : Artist :=
  MplCircle (0, 0) radius (fst (_get_colors s)) (snd (_get_colors s))
    (_get_linewidth s) (_collect_transform s).

Definition polyline_points (s : GeomState) (v : list (R * R)) (close : bool)
  : list (R * R) :=
  mtransforms.transform (_collect_transform s)
    (if close then v ++ [hd (0, 0) v] else v).

Definition polyline_line (s : GeomState) (v : list (R * R)) (close : bool) : Artist :=
  Line2D (map fst (polyline_points s v close)) (map snd (polyline_points s v close))
    (_get_linewidth s) (snd (_get_colors s)).

(* the axes that [_prepare_axes] sets up for the given bounds *)
Definition axes_for (b : Bounds) : Axes :=
  mkAxes (1, 1, 1) (fst (fst (fst b)), snd (fst (fst b))) (snd (fst b), snd b) true false [].

(* what [render] hands back, read from the drawn canvas *)
Definition output_of (return_rgb_array : bool) (c : Canvas) : Exn + option PixelArray :=
  if return_rgb_array then
    match np.reshape3 (tostring_argb c) (snd (get_width_height c))
            (fst (get_width_height c)) 4 with
    | inl e => inl e
    | inr arr4 => inr (Some (np.take_channels 3 arr4))
    end
  else inr None.

(* the viewer after a frame that drew [l] *)
Definition frame_done `{AggBackend} (l : list Artist) (v : Viewer) : Viewer :=
  let a := add_all l (axes_for (_bounds v)) in
  mkViewer (width v) (height v) (dpi v) (canvas_draw (canvas v) a) a
    (geoms v) [] (_bounds v).

(** ** Concrete inputs *)

(* a circle with [Transform(scale=(2, 2))] attached first and
   [Transform(translation=(5, 0))] attached second *)
Definition scale2 : Transform := Transform_init (0, 0) 0 (2, 2).
Definition translate50 : Transform := Transform_init (5, 0) 0 (1, 1).
Definition scaled_then_translated : Geom :=
  add_attr (ATransform translate50) (add_attr (ATransform scale2) (make_circle 1 30 true)).

(* a canvas of one opaque black pixel, whatever is drawn *)
Definition one_black_pixel : AggBackend :=
  {| FigureCanvas := fun _ _ _ => mkCanvas (1%nat, 1%nat) [];
     canvas_draw := fun _ _ => mkCanvas (1%nat, 1%nat) [xff; x00; x00; x00]%byte |}.

(* an interpreter with one scenario file, [simple.py], next to the loader *)
Definition one_scenario : PyRuntime :=
  {| here := "/scenarios";
     osp_join := fun a b => (a ++ "/" ++ b)%string;
     osp_isfile := fun p => String.eqb p "/scenarios/simple.py";
     osp_stem := fun _ => "simple"%string;
     uuid4_hex := fun n => if Nat.eqb n 0 then "0a"%string else "0b"%string;
     spec_from_file_location :=
       fun n p => Some (mkModuleSpec n p (Some (mkLoader n p)));
     module_from_spec := fun sp => mkPyModule (spec_name sp) ∅;
     exec_module :=
       fun l m => (inr tt,
                   mkPyModule (module_name_ m)
                     (<["Scenario"%string := "class"%string]> (namespace m))) |}.

(** * Further code: the image viewer, and runs of the viewer API *)

(** ** SimpleImageViewer *)

(* an ndarray handed to [imshow]: its shape and its bytes *)
Record Image : Type := mkImage
  { shape : list nat;
    data : list byte }.

(* the axes of the image viewer *)
Record ImAxes : Type := mkImAxes
  { im_axison : bool;
    images : list Image }.

(* [Figure(figsize=..., dpi=...)] *)
Record ImFigure : Type := mkImFigure
  { figsize : R * R;
    fig_dpi : Z }.

Class AggImageBackend : Type :=
  { (* [canvas.draw()] of a figure whose axes shows images *)
    image_canvas_draw : Canvas -> ImAxes -> Canvas }.

Record SimpleImageViewer : Type := mkSimpleImageViewer
  { siv_figure : option ImFigure;
    siv_canvas : option Canvas;
    siv_ax : option ImAxes;
    isopen : bool }.

(* the exceptions of [imshow] *)
Inductive ImshowExn : Type :=
| ShapeValueError
| NotRGBAssertionError
| NoneAttributeError
| ZeroSizeValueError.

Definition SimpleImageViewer_init : SimpleImageViewer :=
  mkSimpleImageViewer None None None false.

(* [ax.clear()], [ax.axis("off")] and [ax.imshow(arr)] *)
Definition im_clear (a : ImAxes) : ImAxes := mkImAxes true [].

Definition im_axis_off (a : ImAxes) : ImAxes := mkImAxes false (images a).

(* an array without pixels: one of its dimensions is 0 *)
Definition zero_size (arr : Image) : bool := existsb (Nat.eqb 0) (shape arr).

(* [ax.imshow(arr)]: matplotlib raises [ValueError] on an array without
   pixels and the axes is left without an image *)
Definition im_imshow (arr : Image) (a : ImAxes) : ImshowExn + ImAxes :=
  if zero_size arr then inl ZeroSizeValueError
  else inr (mkImAxes (im_axison a) (images a ++ [arr])).

(* [self.ax.imshow(arr); self.canvas.draw()], the last two statements of
   [imshow] *)
Definition imshow_finish `{AggImageBackend} (arr : Image) (self : SimpleImageViewer)
  : (ImshowExn + unit) * SimpleImageViewer :=
  match siv_ax self with
  | None => (inl NoneAttributeError, self)
  | Some a =>
      match im_imshow arr a with
      | inl e => (inl e, self)
      | inr a' =>
          let self := mkSimpleImageViewer (siv_figure self) (siv_canvas self)
                        (Some a') (isopen self) in
          match siv_canvas self with
          | None => (inl NoneAttributeError, self)
          | Some c =>
              (inr tt,
               mkSimpleImageViewer (siv_figure self)
                 (Some (image_canvas_draw c a'))
                 (siv_ax self) (isopen self))
          end
      end
  end.

Definition imshow `{AggBackend} `{AggImageBackend} (arr : Image)
  (self : SimpleImageViewer) : (ImshowExn + unit) * SimpleImageViewer :=
  match shape arr with
  | [h; w; c] =>
      if negb (Nat.eqb c 3) then (inl NotRGBAssertionError, self)
      else
        match siv_figure self with
        | None =>
            let figure := mkImFigure (INR w / 100, INR h / 100) 100 in
            let canvas := FigureCanvas (Z.of_nat w) (Z.of_nat h) 100 in
            let ax := mkImAxes true [] in
            let ax := im_axis_off ax in
            imshow_finish arr
              (mkSimpleImageViewer (Some figure) (Some canvas) (Some ax) true)
        | Some _ =>
            match siv_ax self with
            | None => (inl NoneAttributeError, self)
            | Some a =>
                let a := im_clear a in
                let a := im_axis_off a in
                imshow_finish arr
                  (mkSimpleImageViewer (siv_figure self) (siv_canvas self)
                     (Some a) (isopen self))
            end
        end
  | _ => (inl ShapeValueError, self)
  end.

Definition SimpleImageViewer_close (self : SimpleImageViewer) : SimpleImageViewer :=
  mkSimpleImageViewer (siv_figure self) (siv_canvas self) (siv_ax self) false.

(* the calls a user makes on an image viewer *)
Inductive ImOp : Type :=
| ImShow (arr : Image)
| ImClose.

Definition run_im_op `{AggBackend} `{AggImageBackend} (op : ImOp)
  (self : SimpleImageViewer) : SimpleImageViewer :=
  match op with
  | ImShow arr => snd (imshow arr self)
  | ImClose => SimpleImageViewer_close self
  end.

Definition run_im_ops `{AggBackend} `{AggImageBackend} (ops : list ImOp)
  (self : SimpleImageViewer) : SimpleImageViewer :=
  fold_left (fun s op => run_im_op op s) ops self.


(** ** Runs of the Drawable and Viewer API *)

Definition apply_ops (ops : list GeomOp) (g : Geom) : Geom :=
  fold_left (fun g op => apply_op op g) ops g.

Definition in_unit (x : R) : Prop := 0 <= x <= 1.

Definition rgba_in (lo hi : R) (c : RGBA) : Prop :=
  let '(r, g, b, a) := c in
  (lo <= r <= hi) /\ (lo <= g <= hi) /\ (lo <= b <= hi) /\ (lo <= a <= hi).

(* [isinstance(a, Transform)] *)
Definition is_Transform (a : Attr) : bool :=
  match a with ATransform _ => true | _ => false end.

(* the number of primitive Drawables under a Drawable *)
Fixpoint primitive_count (g : Geom) : nat :=
  match g with
  | Compound _ gs => list_sum (map primitive_count gs)
  | _ => 1%nat
  end.

Definition dist2 (p q : R * R) : R :=
  (fst p - fst q) * (fst p - fst q) + (snd p - snd q) * (snd p - snd q).

(* the calls a user makes on a viewer *)
Inductive ViewerOp : Type :=
| VSetBounds (left right bottom top : R)
| VAddGeom (geom : Geom)
| VAddOnetime (geom : Geom)
| VRender (return_rgb_array : bool)
| VDrawCircle (radius : R) (res : Z) (filled : bool) (attrs : gmap string PyVal)
| VDrawPolygon (v : list (R * R)) (filled : bool) (attrs : gmap string PyVal)
| VDrawPolyline (v : list (R * R)) (attrs : gmap string PyVal)
| VDrawLine (start end_ : R * R) (attrs : gmap string PyVal).

(* the viewer after the call, whether the call returned or raised *)
Definition run_viewer_op `{AggBackend} (op : ViewerOp) (v : Viewer) : Viewer :=
  match op with
  | VSetBounds l r b t => snd (set_bounds l r b t v)
  | VAddGeom g => snd (add_geom g v)
  | VAddOnetime g => snd (add_onetime g v)
  | VRender f => snd (render f v)
  | VDrawCircle radius res filled attrs => snd (draw_circle radius res filled attrs v)
  | VDrawPolygon pts filled attrs => snd (draw_polygon pts filled attrs v)
  | VDrawPolyline pts attrs => snd (draw_polyline pts attrs v)
  | VDrawLine s e attrs => snd (draw_line s e attrs v)
  end.

Definition run_viewer_ops `{AggBackend} (ops : list ViewerOp) (v : Viewer) : Viewer :=
  fold_left (fun v op => run_viewer_op op v) ops v.

Definition bounds_valid (b : Bounds) : Prop :=
  let '(l, r, bo, t) := b in r > l /\ t > bo.

(* an image backend whose [draw] leaves the canvas bytes alone *)
Definition still_canvas : AggImageBackend :=
  {| image_canvas_draw := fun c _ => c |}.

(** ** Module names of the loader *)

(* the name under which [load name] registers a module when [n] values of
   [uuid4] were drawn before *)
Definition dynamic_name `{PyRuntime} (name : string) (n : nat) : string :=
  ("_dynamic_" ++ osp_stem name ++ "_" ++ uuid4_hex n)%string.

(* an interpreter whose only unit, [broken.py], raises while it is executed,
   after it has bound one name *)
Definition failing_scenario : PyRuntime :=
  {| here := "/scenarios";
     osp_join := fun a b => (a ++ "/" ++ b)%string;
     osp_isfile := fun p => String.eqb p "/scenarios/broken.py";
     osp_stem := fun _ => "broken"%string;
     uuid4_hex := fun n => if Nat.eqb n 0 then "0a"%string else "0b"%string;
     spec_from_file_location :=
       fun n p => Some (mkModuleSpec n p (Some (mkLoader n p)));
     module_from_spec := fun sp => mkPyModule (spec_name sp) ∅;
     exec_module :=
       fun l m => (inl (ModuleError "boom"),
                   mkPyModule (module_name_ m)
                     (<["half"%string := "done"%string]> (namespace m))) |}.

(** * Theorems *)

(** ** Numbers and affine maps *)

Lemma Rneb_refl (x : R) : Rneb x x = false.
Proof. unfold Rneb. destruct (Req_dec_T x x); [reflexivity | contradiction]. Qed.

Lemma Rneb_false_iff (x y : R) : Rneb x y = false <-> x = y.
Proof. unfold Rneb. destruct (Req_dec_T x y); split; intros; try easy. Qed.

Lemma Rneb_true_of_neq (x y : R) : x <> y -> Rneb x y = true.
Proof. unfold Rneb. destruct (Req_dec_T x y); intros; [contradiction | reflexivity]. Qed.

Lemma Rgtb_true_iff (x y : R) : Rgtb x y = true <-> x > y.
Proof. unfold Rgtb. destruct (Rgt_dec x y); split; intros; try easy. Qed.

Lemma Rgtb_false_iff (x y : R) : Rgtb x y = false <-> x <= y.
Proof. unfold Rgtb. destruct (Rgt_dec x y); split; intros; try easy; lra. Qed.

Lemma clamp01_inside (x : R) : 0 <= x <= 1 -> _clamp01 x = x.
Proof.
  intros [H0 H1]. unfold _clamp01.
  rewrite Rmin_right by assumption. apply Rmax_right. assumption.
Qed.

Lemma clamp01_range (x : R) : 0 <= _clamp01 x <= 1.
Proof.
  unfold _clamp01. split.
  - apply Rmax_l.
  - apply Rmax_lub; [lra | apply Rmin_l].
Qed.

Lemma affine_eq (a b : Affine2D) :
  mtransforms.xx a = mtransforms.xx b -> mtransforms.xy a = mtransforms.xy b ->
  mtransforms.x0 a = mtransforms.x0 b -> mtransforms.yx a = mtransforms.yx b ->
  mtransforms.yy a = mtransforms.yy b -> mtransforms.y0 a = mtransforms.y0 b ->
  a = b.
Proof. destruct a, b; simpl; intros; subst; reflexivity. Qed.

Lemma transform_point_add (a b : Affine2D) (p : R * R) :
  mtransforms.transform_point (a +@ b) p
  = mtransforms.transform_point b (mtransforms.transform_point a p).
Proof.
  destruct a, b, p. unfold mtransforms.transform_point, mtransforms.add. simpl.
  f_equal; ring.
Qed.

Lemma transform_point_init (p : R * R) :
  mtransforms.transform_point mtransforms.Affine2D_init p = p.
Proof.
  destruct p. unfold mtransforms.transform_point. simpl. f_equal; ring.
Qed.

Lemma as_affine_all_eq (T : Transform) : as_affine T = as_affine_all T.
Proof.
  destruct T as [[tx ty] th [sx sy]].
  unfold as_affine, as_affine_all. simpl.
  destruct (Rneb sx 1) eqn:Esx; destruct (Rneb sy 1) eqn:Esy;
  destruct (Rneb th 0) eqn:Eth;
  destruct (Rneb tx 0) eqn:Etx; destruct (Rneb ty 0) eqn:Ety; simpl;
  repeat match goal with
         | H : Rneb _ _ = false |- _ => apply Rneb_false_iff in H; subst
         | H : Rneb _ _ = true |- _ => clear H
         end;
  apply affine_eq; simpl; rewrite ?cos_0, ?sin_0; ring.
Qed.

Lemma as_affine_all_point (T : Transform) (p : R * R) :
  mtransforms.transform_point (as_affine_all T) p = resolve_point T p.
Proof.
  destruct T as [[tx ty] th [sx sy]], p as [x y].
  unfold as_affine_all, resolve_point, translate_point, rotate_point, scale_point,
    mtransforms.transform_point. simpl. f_equal; ring.
Qed.

(** C5.  The affine map that [as_affine] builds for a single Transform
    scales a point first, then rotates it about the origin, then translates
    it: it is translate o rotate o scale as a function on points.  The
    matrix is the one obtained when no component is omitted, so a scale of
    (1, 1), a rotation of 0 and a translation of (0, 0) are inert whether
    the code skips them or applies them. *)
Theorem as_affine_scale_rotate_translate (T : Transform) :
  as_affine T = as_affine_all T /\
  forall p, mtransforms.transform_point (as_affine T) p = resolve_point T p.
Proof.
  split.
  - apply as_affine_all_eq.
  - intro p. rewrite as_affine_all_eq. apply as_affine_all_point.
Qed.

Lemma collect_fold_point (l : list Attr) (acc : Affine2D) (p : R * R) :
  mtransforms.transform_point
    (fold_left (fun affine attr =>
                  match attr with
                  | ATransform t => affine +@ as_affine t
                  | _ => affine
                  end) l acc) p
  = apply_in_order (transforms_of l) (mtransforms.transform_point acc p).
Proof.
  revert acc. induction l as [|a l IH]; intro acc; simpl.
  - reflexivity.
  - destruct a; simpl; rewrite IH; try reflexivity.
    rewrite transform_point_add.
    rewrite as_affine_all_eq, as_affine_all_point. reflexivity.
Qed.

Lemma transforms_of_app (l1 l2 : list Attr) :
  transforms_of (l1 ++ l2) = transforms_of l1 ++ transforms_of l2.
Proof.
  induction l1 as [|a l1 IH]; simpl; [reflexivity|].
  destruct a; simpl; rewrite IH; reflexivity.
Qed.

Lemma transforms_of_rev (l : list Attr) :
  transforms_of (rev l) = rev (transforms_of l).
Proof.
  induction l as [|a l IH]; simpl; [reflexivity|].
  rewrite transforms_of_app, IH. destruct a; simpl; rewrite ?app_nil_r; reflexivity.
Qed.

Lemma apply_in_order_app (l1 l2 : list Transform) (p : R * R) :
  apply_in_order (l1 ++ l2) p = apply_in_order l2 (apply_in_order l1 p).
Proof. revert p. induction l1; intro p; simpl; [reflexivity | apply IHl1]. Qed.

Lemma apply_in_order_rev (l : list Transform) (p : R * R) :
  apply_in_order (rev l) p = apply_last_first l p.
Proof.
  revert p. induction l as [|t l IH]; intro p; simpl; [reflexivity|].
  rewrite apply_in_order_app. simpl. rewrite IH. reflexivity.
Qed.

Lemma effective_point_last_first (g : Geom) (p : R * R) :
  effective_point g p = apply_last_first (transforms_of (attrs (state g))) p.
Proof.
  unfold effective_point, _collect_transform.
  rewrite collect_fold_point, transform_point_init, transforms_of_rev.
  apply apply_in_order_rev.
Qed.

Lemma resolve_point_no_rotation (tx ty sx sy : R) (p : R * R) :
  resolve_point (Transform_init (tx, ty) 0 (sx, sy)) p
  = (sx * fst p + tx, sy * snd p + ty).
Proof.
  unfold resolve_point, translate_point, rotate_point, scale_point.
  cbn [Transform_init translation rotation scale fst snd].
  rewrite cos_0, sin_0. f_equal; ring.
Qed.

(** C1, evaluated on the code.  On a Drawable with [Transform(scale=(2, 2))]
    attached first and [Transform(translation=(5, 0))] attached second,
    [_collect_transform] maps the local origin to (10, 0): the transform
    attached last is applied first.  The point is not (5, 0), which is what
    applying the transforms in attachment order, scale and then translate,
    gives. *)
Theorem scale_then_translate_puts_origin_at_10_0 :
  effective_point scaled_then_translated (0, 0) = (10, 0) /\
  effective_point scaled_then_translated (0, 0) <> (5, 0) /\
  apply_in_order (transforms_of (attrs (state scaled_then_translated))) (0, 0) = (5, 0).
Proof.
  assert (E : effective_point scaled_then_translated (0, 0) = (10, 0)).
  { rewrite effective_point_last_first.
    cbn [scaled_then_translated make_circle add_attr with_state state attrs Geom_init
         app transforms_of apply_last_first].
    unfold scale2, translate50. rewrite !resolve_point_no_rotation.
    cbn [fst snd]. f_equal; lra. }
  split; [exact E|]. split.
  - rewrite E. intro H.
    assert (H' : fst (10, 0) = fst (5, 0)) by (rewrite H; reflexivity).
    cbn [fst] in H'. lra.
  - cbn [scaled_then_translated make_circle add_attr with_state state attrs Geom_init
         app transforms_of apply_in_order].
    unfold scale2, translate50. rewrite !resolve_point_no_rotation.
    cbn [fst snd]. f_equal; lra.
Qed.

(** ** The colour slot *)

Lemma last_color_snoc_color (l : list Attr) (c : Color) :
  last_color (l ++ [AColor c]) = Some c.
Proof. unfold last_color. rewrite fold_left_app. reflexivity. Qed.

Lemma last_color_snoc_other (l : list Attr) (a : Attr) :
  is_Color a = false -> last_color (l ++ [a]) = last_color l.
Proof.
  intro H. unfold last_color. rewrite fold_left_app.
  destruct a; [discriminate H | reflexivity | reflexivity].
Qed.

Lemma no_color_after_filter (l : list Attr) :
  List.filter is_Color (List.filter (fun a => negb (is_Color a)) l) = [].
Proof.
  induction l as [|a l IH]; [reflexivity|].
  destruct a; cbn [List.filter is_Color negb]; exact IH.
Qed.

Lemma count_colors_app (l1 l2 : list Attr) :
  count_colors (l1 ++ l2) = (count_colors l1 + count_colors l2)%nat.
Proof. unfold count_colors. rewrite List.filter_app, length_app. reflexivity. Qed.

Lemma state_with_state (f : GeomState -> GeomState) (g : Geom) :
  state (with_state f g) = f (state g).
Proof. destruct g; reflexivity. Qed.

Lemma Color_init_red_black : Color_init (1, 0, 0, 1) <> Color_init (0, 0, 0, 1).
Proof.
  unfold Color_init. intro H.
  assert (E : _clamp01 1 = _clamp01 0).
  { change (_clamp01 1) with
      (fst (fst (fst (vec4 (mkColor (_clamp01 1, _clamp01 0, _clamp01 0, _clamp01 1)))))).
    rewrite H. reflexivity. }
  rewrite !clamp01_inside in E by lra. lra.
Qed.

(** C6, counterexample.  A new circle satisfies the colour invariant;
    [add_attr] of a red Color attribute appends it and leaves the
    current-colour slot black, so the slot is no longer the Color attribute
    registered last, and the sequence holds two Color attributes. *)
Lemma add_attr_color_breaks_invariant :
  let g0 := make_circle 1 30 true in
  let g1 := apply_op (OpAddAttr (AColor (Color_init (1, 0, 0, 1)))) g0 in
  color_invariant g0 /\ ~ color_invariant g1 /\ count_colors (attrs (state g1)) = 2%nat.
Proof.
  cbv zeta. split; [reflexivity|]. split; [|reflexivity].
  unfold color_invariant.
  cbn [apply_op add_attr make_circle with_state state attrs _color Geom_init app].
  change [AColor (Color_init (0, 0, 0, 1)); AColor (Color_init (1, 0, 0, 1))]
    with ([AColor (Color_init (0, 0, 0, 1))] ++ [AColor (Color_init (1, 0, 0, 1))]).
  rewrite last_color_snoc_color. intro H.
  apply Color_init_red_black. congruence.
Qed.

(** C6, amended.  The current-colour slot equals the Color attribute
    registered last after construction and after every [set_color];
    [set_linewidth] and [add_attr] of an attribute that is not a Color
    preserve this, while [add_attr] of a Color appends it and leaves the
    slot as it was.  [set_color] removes every Color attribute from the
    sequence and appends the new one at the end, so that exactly one Color
    attribute remains. *)
Theorem color_slot_follows_set_color :
  (forall g, state g = Geom_init -> color_invariant g) /\
  (forall g r g' b alpha,
     let c := Color_init (r, g', b, alpha) in
     let g1 := set_color r g' b alpha g in
     _color (state g1) = c /\
     attrs (state g1)
       = List.filter (fun a => negb (is_Color a)) (attrs (state g)) ++ [AColor c] /\
     count_colors (attrs (state g1)) = 1%nat /\
     color_invariant g1) /\
  (forall g x, color_invariant g -> color_invariant (set_linewidth x g)) /\
  (forall g a, is_Color a = false ->
     color_invariant g -> color_invariant (add_attr a g)) /\
  (forall g c,
     _color (state (add_attr (AColor c) g)) = _color (state g) /\
     attrs (state (add_attr (AColor c) g)) = attrs (state g) ++ [AColor c]).
Proof.
  split; [|split; [|split; [|split]]].
  - intros g E. unfold color_invariant. rewrite E. reflexivity.
  - intros g r g' b alpha c g1. subst g1. unfold set_color, color_invariant.
    rewrite state_with_state. cbn [_color attrs]. fold c.
    repeat split.
    + rewrite count_colors_app. unfold count_colors at 1.
      rewrite no_color_after_filter. reflexivity.
    + apply last_color_snoc_color.
  - intros g x H. unfold set_linewidth, color_invariant in *.
    rewrite state_with_state. exact H.
  - intros g a Ha H. unfold add_attr, color_invariant in *.
    rewrite state_with_state. cbn [_color attrs].
    rewrite last_color_snoc_other by exact Ha. exact H.
  - intros g c. unfold add_attr. rewrite state_with_state. split; reflexivity.
Qed.

Lemma color_slot_follows_set_color_witness :
  color_invariant (set_linewidth 2 (make_circle 1 30 true)) /\
  color_invariant (add_attr (ATransform Transform_default) (make_circle 1 30 true)).
Proof.
  destruct color_slot_follows_set_color as (H0 & _ & H2 & H3 & _).
  split.
  - apply H2. apply H0. reflexivity.
  - apply H3; [reflexivity|]. apply H0. reflexivity.
Defined.

(** ** Drawing *)

Lemma Geom_nested_ind (P : Geom -> Prop) :
  (forall s, P (Geom_ s)) ->
  (forall s v, P (FilledPolygon s v)) ->
  (forall s v close, P (PolyLine s v close)) ->
  (forall s radius, P (Circle s radius)) ->
  (forall s gs, Forall P gs -> P (Compound s gs)) ->
  forall g, P g.
Proof.
  intros H_Geom H_FilledPolygon H_PolyLine H_Circle H_Compound.
  fix IH 1. intros [s|s v|s v close|s radius|s gs].
  - apply H_Geom.
  - apply H_FilledPolygon.
  - apply H_PolyLine.
  - apply H_Circle.
  - apply H_Compound. induction gs as [|x gs IHgs]; constructor.
    + apply IH.
    + exact IHgs.
Qed.

Lemma add_all_nil (a : Axes) : add_all [] a = a.
Proof. destruct a. unfold add_all. cbn. rewrite app_nil_r. reflexivity. Qed.

Lemma add_all_add_all (l1 l2 : list Artist) (a : Axes) :
  add_all l2 (add_all l1 a) = add_all (l1 ++ l2) a.
Proof. unfold add_all. cbn. rewrite app_assoc. reflexivity. Qed.

Lemma new_artists_add_all (l : list Artist) (a : Axes) :
  new_artists a (add_all l a) = l.
Proof.
  unfold new_artists, add_all. cbn [artists].
  rewrite skipn_app, skipn_all, Nat.sub_diag. reflexivity.
Qed.

Lemma get_colors_eta (s : GeomState) :
  _get_colors s = (fst (_get_colors s), snd (_get_colors s)).
Proof. destruct (_get_colors s). reflexivity. Qed.

Lemma FilledPolygon_draw_empty (s : GeomState) (a : Axes) :
  FilledPolygon_draw s [] a = (inl ValueError, a).
Proof.
  unfold FilledPolygon_draw, _get_colors.
  destruct (vec4 (_color s)) as [[[r g] b] al]. reflexivity.
Qed.

Lemma FilledPolygon_draw_eq (s : GeomState) (v : list (R * R)) (a : Axes) :
  v <> [] ->
  FilledPolygon_draw s v a = (inr tt, add_all [polygon_patch s v] a).
Proof.
  intro Hv. destruct v as [|p v]; [contradiction|].
  unfold FilledPolygon_draw, polygon_patch, _get_colors.
  destruct (vec4 (_color s)) as [[[r g] b] al]. reflexivity.
Qed.

Lemma Circle_draw_eq (s : GeomState) (radius : R) (a : Axes) :
  Circle_draw s radius a = (inr tt, add_all [circle_patch s radius] a).
Proof.
  unfold Circle_draw, circle_patch, _get_colors.
  destruct (vec4 (_color s)) as [[[r g] b] al]. reflexivity.
Qed.

Lemma PolyLine_draw_empty (s : GeomState) (close : bool) (a : Axes) :
  PolyLine_draw s [] close a = (inl IndexError, a).
Proof.
  unfold PolyLine_draw, _get_colors.
  destruct (vec4 (_color s)) as [[[r g] b] al]. destruct close; reflexivity.
Qed.

Lemma PolyLine_draw_nonempty (s : GeomState) (v : list (R * R)) (close : bool) (a : Axes) :
  v <> [] ->
  PolyLine_draw s v close a = (inr tt, add_all [polyline_line s v close] a).
Proof.
  intro Hv. destruct v as [|p v]; [contradiction|].
  unfold PolyLine_draw, polyline_line, polyline_points, _get_colors.
  destruct (vec4 (_color s)) as [[[r g] b] al]. destruct close; reflexivity.
Qed.

Lemma for_each_uniform (gs : list Geom) :
  Forall (fun g => exists r l, forall a, draw g a = (r, g, add_all l a)) gs ->
  exists r l, forall a, for_each draw gs a = (r, gs, add_all l a).
Proof.
  induction 1 as [|g gs (r & l & Hg) _ (r' & l' & IH)].
  - exists (inr tt), []. intro a. cbn. rewrite add_all_nil. reflexivity.
  - destruct r as [e|[]].
    + exists (inl e), l. intro a. cbn [for_each]. rewrite Hg. reflexivity.
    + exists r', (l ++ l'). intro a. cbn [for_each]. rewrite Hg, IH, add_all_add_all.
      reflexivity.
Qed.

Lemma draw_uniform (g : Geom) :
  exists r l, forall a, draw g a = (r, g, add_all l a).
Proof.
  induction g as [s|s v|s v close|s radius|s gs IH] using Geom_nested_ind.
  - exists (inl NotImplementedError), []. intro a. cbn. rewrite add_all_nil. reflexivity.
  - destruct v as [|p v].
    + exists (inl ValueError), []. intro a. cbn [draw].
      rewrite FilledPolygon_draw_empty, add_all_nil. reflexivity.
    + exists (inr tt), [polygon_patch s (p :: v)]. intro a. cbn [draw].
      rewrite FilledPolygon_draw_eq by discriminate. reflexivity.
  - destruct v as [|p v].
    + exists (inl IndexError), []. intro a. cbn [draw].
      rewrite PolyLine_draw_empty, add_all_nil. reflexivity.
    + exists (inr tt), [polyline_line s (p :: v) close]. intro a. cbn [draw].
      rewrite PolyLine_draw_nonempty by discriminate. reflexivity.
  - exists (inr tt), [circle_patch s radius]. intro a. cbn [draw].
    rewrite Circle_draw_eq. reflexivity.
  - destruct (for_each_uniform gs IH) as (r & l & H).
    exists r, l. intro a. cbn [draw]. rewrite H. reflexivity.
Qed.

Lemma for_each_draw_uniform (gs : list Geom) :
  exists r l, forall a, for_each draw gs a = (r, gs, add_all l a).
Proof.
  apply for_each_uniform. apply List.Forall_forall. intros g _. apply draw_uniform.
Qed.

Lemma for_each_ok (gs : list Geom) :
  Forall (fun g => exists l, forall a, draw g a = (inr tt, g, add_all l a)) gs ->
  exists l, forall a, for_each draw gs a = (inr tt, gs, add_all l a).
Proof.
  induction 1 as [|g gs (l & Hg) _ (l' & IH)].
  - exists []. intro a. cbn. rewrite add_all_nil. reflexivity.
  - exists (l ++ l'). intro a. cbn [for_each]. rewrite Hg, IH, add_all_add_all.
    reflexivity.
Qed.

Lemma draw_ok (g : Geom) :
  drawable g = true -> exists l, forall a, draw g a = (inr tt, g, add_all l a).
Proof.
  induction g as [s|s v|s v close|s radius|s gs IH] using Geom_nested_ind;
    cbn [drawable]; intro Hd.
  - discriminate.
  - destruct v as [|p v]; [discriminate|].
    exists [polygon_patch s (p :: v)]. intro a. cbn [draw].
    rewrite FilledPolygon_draw_eq by discriminate. reflexivity.
  - destruct v as [|p v]; [discriminate|].
    exists [polyline_line s (p :: v) close]. intro a. cbn [draw].
    rewrite PolyLine_draw_nonempty by discriminate. reflexivity.
  - exists [circle_patch s radius]. intro a. cbn [draw].
    rewrite Circle_draw_eq. reflexivity.
  - assert (Hall : Forall (fun g => exists l, forall a, draw g a = (inr tt, g, add_all l a)) gs).
    { rewrite forallb_forall in Hd. rewrite List.Forall_forall in IH |- *.
      intros g Hg. apply IH; [exact Hg | apply Hd; exact Hg]. }
    destruct (for_each_ok gs Hall) as (l & H).
    exists l. intro a. cbn [draw]. rewrite H. reflexivity.
Qed.

Lemma for_each_draw_ok (gs : list Geom) :
  forallb drawable gs = true ->
  exists l, forall a, for_each draw gs a = (inr tt, gs, add_all l a).
Proof.
  intro Hd. apply for_each_ok. rewrite forallb_forall in Hd.
  apply List.Forall_forall. intros g Hg. apply draw_ok, Hd, Hg.
Qed.

Lemma collect_transform_init : _collect_transform Geom_init = mtransforms.Affine2D_init.
Proof. reflexivity. Qed.

Lemma vec4_black : vec4 (Color_init (0, 0, 0, 1)) = (0, 0, 0, 1).
Proof. unfold Color_init. cbn [vec4]. rewrite !clamp01_inside by lra. reflexivity. Qed.

Lemma circle_patch_init (radius : R) :
  circle_patch Geom_init radius
  = MplCircle (0, 0) radius (0, 0, 0, 1) (0, 0, 0, 0.5) 1 mtransforms.Affine2D_init.
Proof.
  unfold circle_patch. rewrite collect_transform_init.
  unfold _get_colors, _get_linewidth. cbn [Geom_init _color _linewidth LineWidth_init stroke].
  rewrite vec4_black. cbn [fst snd].
  replace (0.5 * 0) with 0 by lra. replace (0.5 * 1) with 0.5 by lra. reflexivity.
Qed.

Lemma artists_add_all (l : list Artist) (a : Axes) :
  artists (add_all l a) = artists a ++ l.
Proof. reflexivity. Qed.

(** C10.  [make_circle] ignores [res] and [filled]: for all arguments it
    returns the Circle of the given radius in its initial state, whose [draw]
    adds one circle patch with the opaque current colour as face colour, a
    filled disc.  [draw_circle] with any [filled] registers that same
    Circle as a one-time Drawable. *)
Theorem make_circle_ignores_res_and_filled (radius : R) (res : Z) (filled : bool) :
  make_circle radius res filled = Circle Geom_init radius /\
  (forall a : Axes,
     fst (draw (make_circle radius res filled) a) = (inr tt, Circle Geom_init radius) /\
     artists (snd (draw (make_circle radius res filled) a))
     = artists a ++ [MplCircle (0, 0) radius (0, 0, 0, 1) (0, 0, 0, 0.5) 1
                       mtransforms.Affine2D_init]) /\
  (forall v : Viewer,
     draw_circle radius res filled ∅ v
     = (inr (Circle Geom_init radius),
        with_onetime_geoms (onetime_geoms v ++ [Circle Geom_init radius]) v)).
Proof.
  split; [reflexivity|]. split.
  - intro a. unfold make_circle. cbn [draw]. rewrite Circle_draw_eq.
    cbn [fst snd]. rewrite artists_add_all, circle_patch_init. split; reflexivity.
  - intro v. unfold draw_circle, make_circle, _add_attrs.
    rewrite !lookup_empty. reflexivity.
Qed.

Lemma combine_fst_snd {A B : Type} (l : list (A * B)) :
  combine (map fst l) (map snd l) = l.
Proof. induction l as [|[x y] l IH]; cbn; [reflexivity | rewrite IH; reflexivity]. Qed.

Lemma segments_of_length (pts : list (R * R)) :
  length (segments_of pts) = (length pts - 1)%nat.
Proof.
  unfold segments_of. rewrite length_combine.
  destruct pts as [|p pts]; cbn [tl length]; lia.
Qed.

Lemma segments_of_snoc (pts : list (R * R)) (p0 q : R * R) :
  pts <> [] ->
  segments_of (pts ++ [q]) = segments_of pts ++ [(List.last pts p0, q)].
Proof.
  unfold segments_of. induction pts as [|p pts IH]; [contradiction|]. intros _.
  destruct pts as [|p' pts].
  - reflexivity.
  - specialize (IH ltac:(discriminate)).
    cbn [app tl combine] in IH |- *. rewrite IH. reflexivity.
Qed.

Lemma last_of_map {A B : Type} (f : A -> B) (l : list A) (d : A) :
  List.last (map f l) (f d) = f (List.last l d).
Proof.
  induction l as [|x l IH]; [reflexivity|].
  destruct l as [|y l]; [reflexivity|]. exact IH.
Qed.

Lemma segments_polyline_line (s : GeomState) (v : list (R * R)) (close : bool) :
  segments (polyline_line s v close) = segments_of (polyline_points s v close).
Proof. unfold polyline_line, segments. rewrite combine_fst_snd. reflexivity. Qed.

Lemma segment_count_single (a : Artist) :
  segment_count [a] = length (segments a).
Proof. unfold segment_count. cbn. rewrite app_nil_r. reflexivity. Qed.

(** C8.  Drawing a PolyLine of [n] vertices leaves the PolyLine, and so its
    stored vertex list, as it was.  A closed one rasterizes [n] segments: the
    segments between consecutive vertices and a closing segment from the last
    vertex back to the first; an open one rasterizes [n - 1] segments.  With
    no vertex at all the indexing raises [IndexError] and nothing is
    added to the axes. *)
Theorem polyline_draw_segments (s : GeomState) (v : list (R * R)) (close : bool)
  (a : Axes) (r : Exn + unit) (self' : Geom) (a' : Axes) :
  draw (PolyLine s v close) a = (r, self', a') ->
  let n := length v in
  let T := mtransforms.transform_point (_collect_transform s) in
  self' = PolyLine s v close /\
  segment_count (new_artists a a') = (if close then n else (n - 1)%nat) /\
  (v <> [] ->
   r = inr tt /\
   exists line,
     new_artists a a' = [line] /\
     segments line
     = if close
       then segments_of (map T v) ++ [(T (List.last v (0, 0)), T (hd (0, 0) v))]
       else segments_of (map T v)) /\
  (v = [] -> r = inl IndexError /\ a' = a).
Proof.
  intros Hd n T. cbn [draw] in Hd.
  destruct v as [|p v].
  - rewrite PolyLine_draw_empty in Hd. injection Hd as <- <- <-.
    split; [reflexivity|]. split.
    + unfold new_artists. rewrite skipn_all. destruct close; reflexivity.
    + split; [intro H; contradiction | intros _; split; reflexivity].
  - rewrite PolyLine_draw_nonempty in Hd by discriminate. injection Hd as <- <- <-.
    split; [reflexivity|].
    rewrite new_artists_add_all, segment_count_single, segments_polyline_line.
    assert (Hseg : segments_of (polyline_points s (p :: v) close)
                   = if close
                     then segments_of (map T (p :: v))
                            ++ [(T (List.last (p :: v) (0, 0)), T (hd (0, 0) (p :: v)))]
                     else segments_of (map T (p :: v))).
    { unfold polyline_points, mtransforms.transform. fold T. destruct close.
      - rewrite map_app. cbn [map hd].
        rewrite (segments_of_snoc (map T (p :: v)) (T (0, 0))) by discriminate.
        rewrite last_of_map. reflexivity.
      - reflexivity. }
    split.
    + rewrite Hseg. subst n. destruct close.
      * rewrite length_app, segments_of_length, length_map. cbn [length]. lia.
      * rewrite segments_of_length, length_map. reflexivity.
    + split; [|discriminate].
      intros _. split; [reflexivity|].
      exists (polyline_line s (p :: v) close). split; [reflexivity|].
      rewrite segments_polyline_line. exact Hseg.
Qed.

Lemma polyline_draw_segments_witness :
  let tri := [(0, 0); (1, 0); (1, 1)] in
  segment_count (new_artists Axes_clear (snd (draw (make_polygon tri false) Axes_clear))) = 3%nat /\
  segment_count (new_artists Axes_clear (snd (draw (make_polyline tri) Axes_clear))) = 2%nat /\
  snd (fst (draw (make_polygon tri false) Axes_clear)) = make_polygon tri false.
Proof.
  intro tri.
  destruct (draw (make_polygon tri false) Axes_clear) as [[r1 g1] a1] eqn:E1.
  destruct (draw (make_polyline tri) Axes_clear) as [[r2 g2] a2] eqn:E2.
  destruct (polyline_draw_segments Geom_init tri true Axes_clear r1 g1 a1 E1) as (Hs & Hc & _).
  destruct (polyline_draw_segments Geom_init tri false Axes_clear r2 g2 a2 E2) as (_ & Hc' & _).
  cbn [fst snd]. repeat split; assumption.
Defined.

Lemma compound_draw_ignores_state (s s' : GeomState) (gs : list Geom) (a : Axes) :
  fst (fst (draw (Compound s gs) a)) = fst (fst (draw (Compound s' gs) a)) /\
  snd (draw (Compound s gs) a) = snd (draw (Compound s' gs) a).
Proof.
  cbn [draw]. destruct (for_each draw gs a) as [[r gs'] a']. split; reflexivity.
Qed.

(** C7, counterexample.  A translation by (3, 0) attached to a Compound of
    one circle does not contribute to the drawing: on every axes the artists
    drawn are those drawn without it. *)
Lemma compound_translation_does_not_contribute :
  ~ compound_transform_contributes
      (Compound Geom_init [make_circle 1 30 true])
      (Transform_init (3, 0) 0 (1, 1)).
Proof.
  intros [a H]. apply H.
  unfold add_attr. cbn [with_state].
  f_equal; apply compound_draw_ignores_state.
Qed.

Lemma drawn_alone (g : Geom) (l : list Artist) :
  (forall a, draw g a = (inr tt, g, add_all l a)) ->
  own_artists g = l.
Proof. intro H. unfold own_artists. rewrite H. cbn [snd]. apply new_artists_add_all. Qed.

Lemma for_each_draw_concat (gs : list Geom) (a : Axes) :
  forallb drawable gs = true ->
  for_each draw gs a
  = (inr tt, gs,
     add_all (concat (map own_artists gs)) a).
Proof.
  revert a. induction gs as [|g gs IH]; intros a Hd.
  - cbn. rewrite add_all_nil. reflexivity.
  - cbn [forallb] in Hd. apply andb_prop in Hd as [Hg Hgs].
    destruct (draw_ok g Hg) as (l & Hl).
    cbn [for_each map concat]. rewrite (drawn_alone g l Hl), Hl, IH by exact Hgs.
    rewrite add_all_add_all. reflexivity.
Qed.

Lemma add_attrs_compound (outer : list Attr) (s : GeomState) (gs : list Geom) :
  exists s', fold_right add_attr (Compound s gs) outer = Compound s' gs.
Proof.
  induction outer as [|x outer (s' & IH)].
  - exists s. reflexivity.
  - cbn [fold_right]. rewrite IH. eexists. reflexivity.
Qed.

Lemma placed_center_circle_patch (s : GeomState) (radius : R) :
  placed_center (circle_patch s radius)
  = Some (apply_last_first (transforms_of (attrs s)) (0, 0)).
Proof.
  unfold circle_patch, placed_center. f_equal.
  exact (effective_point_last_first (Circle s radius) (0, 0)).
Qed.

(** C7, amended.  [Compound.draw] draws each child in order, each with its
    own attributes only; an attribute attached to the Compound itself, a
    transform included, changes neither the outcome nor the artists drawn.
    Consequently the caps of [make_capsule length width] are drawn with
    centres (0, 0) and (length, 0), whatever attributes are attached to the
    Compound. *)
Theorem compound_draws_children_only :
  (forall s gs a,
     forallb drawable gs = true ->
     fst (draw (Compound s gs) a) = (inr tt, Compound s gs) /\
     new_artists a (snd (draw (Compound s gs) a))
     = concat (map own_artists gs)) /\
  (forall s gs attr a,
     fst (fst (draw (add_attr attr (Compound s gs)) a)) = fst (fst (draw (Compound s gs) a)) /\
     snd (draw (add_attr attr (Compound s gs)) a) = snd (draw (Compound s gs) a)) /\
  (forall length width outer a,
     let capsule := fold_right add_attr (make_capsule length width) outer in
     exists body cap0 cap1,
       draw capsule a = (inr tt, capsule, add_all [body; cap0; cap1] a) /\
       placed_center cap0 = Some (0, 0) /\
       placed_center cap1 = Some (length, 0)).
Proof.
  split; [|split].
  - intros s gs a Hd. cbn [draw]. rewrite for_each_draw_concat by exact Hd.
    cbn [fst snd]. rewrite new_artists_add_all. split; reflexivity.
  - intros s gs attr a. unfold add_attr. cbn [with_state].
    apply compound_draw_ignores_state.
  - intros length width outer a capsule.
    destruct (add_attrs_compound outer Geom_init
                [make_polygon [(0, - (width / 2)); (0, width / 2);
                               (length, width / 2); (length, - (width / 2))] true;
                 make_circle (width / 2) 30 true;
                 add_attr (ATransform (Transform_init (length, 0) 0 (1, 1)))
                   (make_circle (width / 2) 30 true)]) as (s' & Hs').
    subst capsule. unfold make_capsule. cbv zeta. rewrite Hs'.
    eexists _, _, _. split.
    + cbn [draw for_each make_polygon make_circle add_attr with_state].
      rewrite FilledPolygon_draw_eq by discriminate.
      rewrite !Circle_draw_eq, !add_all_add_all.
      cbn [app]. reflexivity.
    + split.
      * rewrite placed_center_circle_patch. reflexivity.
      * rewrite placed_center_circle_patch.
        cbn [Geom_init attrs app transforms_of apply_last_first].
        rewrite resolve_point_no_rotation. cbn [fst snd]. f_equal. f_equal; lra.
Qed.

Lemma compound_draws_children_only_witness :
  fst (draw (Compound Geom_init [make_circle 1 30 true; make_polyline [(0, 0); (1, 0)]])
         Axes_clear)
  = (inr tt, Compound Geom_init [make_circle 1 30 true; make_polyline [(0, 0); (1, 0)]]).
Proof.
  destruct compound_draws_children_only as (H & _).
  apply H. reflexivity.
Defined.

(** ** Frames *)

Lemma prepare_axes_eq (v : Viewer) :
  _prepare_axes v = (inr tt, with_ax (axes_for (_bounds v)) v).
Proof.
  unfold _prepare_axes, axes_for, bind, get.
  destruct (_bounds v) as [[[l r] b] t]. reflexivity.
Qed.

Lemma prepared_axes_eq (v : Viewer) : prepared_axes v = axes_for (_bounds v).
Proof. unfold prepared_axes. rewrite prepare_axes_eq. reflexivity. Qed.

Section Render.

Context `{B : AggBackend}.

Lemma render_tail (flag : bool) (v : Viewer) :
  ((modify (with_onetime_geoms []) ;;;
    modify (fun v => with_canvas (canvas_draw (canvas v) (ax v)) v) ;;;
    if flag then
      v <- get ;;
      let '(w, h) := get_width_height (canvas v) in
      let buf := tostring_argb (canvas v) in
      arr4 <- lift (np.reshape3 buf h w 4) ;;
      let arr := np.take_channels 3 arr4 in
      ret (Some arr)
    else
      ret None)%py v)
  = (output_of flag (canvas_draw (canvas v) (ax v)),
     with_canvas (canvas_draw (canvas v) (ax v)) (with_onetime_geoms [] v)).
Proof.
  unfold bind, modify, output_of. destruct flag; [|reflexivity].
  unfold get. cbn [canvas ax with_canvas with_onetime_geoms].
  destruct (get_width_height (canvas_draw (canvas v) (ax v))) as [w h]. cbn [fst snd].
  unfold lift. destruct (np.reshape3 _ h w 4) as [e|arr4]; reflexivity.
Qed.

Lemma render_drawable (flag : bool) (v : Viewer) :
  forallb drawable (geoms v) = true ->
  forallb drawable (onetime_geoms v) = true ->
  let l := concat (map own_artists (geoms v ++ onetime_geoms v)) in
  render flag v = (output_of flag (canvas (frame_done l v)), frame_done l v).
Proof.
  intros Hg Ho l. unfold render.
  unfold bind at 1. rewrite prepare_axes_eq.
  unfold bind at 1. unfold draw_geoms. cbn [geoms ax with_ax].
  rewrite (for_each_draw_concat _ _ Hg).
  unfold bind at 1. unfold draw_onetime_geoms.
  cbn [geoms ax with_ax with_geoms onetime_geoms].
  rewrite (for_each_draw_concat _ _ Ho), add_all_add_all.
  rewrite render_tail. subst l. rewrite map_app, concat_app. reflexivity.
Qed.

(* whatever the Drawables do, a frame leaves the persistent list, the bounds
   and the prepared window of the axes as they were *)
Lemma render_frame (flag : bool) (v : Viewer) :
  exists out v' l,
    render flag v = (out, v') /\
    ax v' = add_all l (axes_for (_bounds v)) /\
    geoms v' = geoms v /\
    _bounds v' = _bounds v.
Proof.
  unfold render.
  unfold bind at 1. rewrite prepare_axes_eq.
  unfold bind at 1. unfold draw_geoms. cbn [geoms ax with_ax].
  destruct (for_each_draw_uniform (geoms v)) as (r1 & l1 & H1). rewrite H1.
  destruct r1 as [e|[]].
  { eexists _, _, l1. split; [reflexivity|]. repeat split. }
  unfold bind at 1. unfold draw_onetime_geoms.
  cbn [geoms ax with_ax with_geoms onetime_geoms].
  destruct (for_each_draw_uniform (onetime_geoms v)) as (r2 & l2 & H2). rewrite H2.
  destruct r2 as [e|[]].
  { eexists _, _, (l1 ++ l2). split; [reflexivity|].
    rewrite add_all_add_all. repeat split. }
  rewrite render_tail, add_all_add_all.
  eexists _, _, (l1 ++ l2). split; [reflexivity|]. repeat split.
Qed.

End Render.

(** C4.  [set_bounds left right bottom top] fails exactly when
    [right <= left] or [top <= bottom]; a failed call leaves the viewer as it
    was; a successful call stores the bounds, and the next [render] sets the
    window of the axes to them. *)
Theorem set_bounds_fails_iff `{AggBackend} (v : Viewer) (left right bottom top : R) :
  let res := set_bounds left right bottom top v in
  ((exists e, fst res = inl e) <-> (right <= left \/ top <= bottom)) /\
  (right <= left \/ top <= bottom -> res = (inl AssertionError, v)) /\
  (right > left /\ top > bottom ->
   res = (inr tt, with_bounds (left, right, bottom, top) v) /\
   _bounds (snd res) = (left, right, bottom, top) /\
   forall flag,
     xlim (ax (snd (render flag (snd res)))) = (left, right) /\
     ylim (ax (snd (render flag (snd res)))) = (bottom, top)).
Proof.
  intro res.
  assert (Hfail : right <= left \/ top <= bottom -> res = (inl AssertionError, v)).
  { intro Hle. subst res. unfold set_bounds, bind, assert_.
    destruct Hle as [Hle|Hle]; apply Rgtb_false_iff in Hle; rewrite Hle;
      [|rewrite andb_false_r]; reflexivity. }
  assert (Hok : right > left /\ top > bottom ->
                res = (inr tt, with_bounds (left, right, bottom, top) v)).
  { intros [H1 H2]. subst res. unfold set_bounds, bind, assert_.
    apply Rgtb_true_iff in H1, H2. rewrite H1, H2. reflexivity. }
  split; [|split].
  - split.
    + intros [e He].
      destruct (Rle_dec right left) as [|Hn1]; [left; assumption|].
      destruct (Rle_dec top bottom) as [|Hn2]; [right; assumption|].
      rewrite Hok in He by lra. discriminate He.
    + intro Hle. exists AssertionError. rewrite (Hfail Hle). reflexivity.
  - exact Hfail.
  - intro Hgt. rewrite (Hok Hgt). cbn [snd]. split; [reflexivity|]. split; [reflexivity|].
    intro flag.
    destruct (render_frame flag (with_bounds (left, right, bottom, top) v))
      as (out & v' & l & Hr & Hax & _ & _).
    rewrite Hr. cbn [snd]. rewrite Hax. split; reflexivity.
Qed.


Section Frames.

Context `{B : AggBackend}.

Lemma render_seq_steady (fs : list bool) (u : Viewer) :
  forallb drawable (geoms u) = true ->
  onetime_geoms u = [] ->
  Forall (fun vk =>
            onetime_geoms vk = [] /\ geoms vk = geoms u /\
            artists (ax vk) = drawn_by (geoms u) (prepared_axes u))
         (render_seq fs u).
Proof.
  revert u. induction fs as [|f fs IH]; intros u Hg Ho; cbn [render_seq].
  - constructor.
  - pose proof (render_drawable f u Hg) as Hr. rewrite Ho in Hr.
    specialize (Hr eq_refl). cbv zeta in Hr. rewrite app_nil_r in Hr.
    rewrite Hr. cbn [snd].
    assert (Hdrawn : artists (ax (frame_done (concat (map own_artists (geoms u))) u))
                     = drawn_by (geoms u) (prepared_axes u)).
    { unfold drawn_by. rewrite (for_each_draw_concat _ _ Hg), prepared_axes_eq.
      reflexivity. }
    constructor.
    + repeat split. exact Hdrawn.
    + specialize (IH (frame_done (concat (map own_artists (geoms u))) u) Hg eq_refl).
      rewrite prepared_axes_eq in IH |- *. exact IH.
Qed.

(** C3, amended.  With Drawables that can be drawn, [render] empties the one-time
    list after drawing, with or without pixel extraction, and leaves the
    persistent list as it was.  A Drawable registered with [add_onetime] is
    drawn by the next [render], after the persistent and the earlier one-time
    Drawables, and every later [render] draws the persistent ones only. *)
Theorem onetime_geoms_drawn_once (v : Viewer) (g : Geom) (f : bool) (fs : list bool) :
  forallb drawable (geoms v) = true ->
  forallb drawable (onetime_geoms v) = true ->
  drawable g = true ->
  let v0 := snd (add_onetime g v) in
  let v1 := snd (render f v0) in
  (f = false -> fst (render f v0) = inr None) /\
  onetime_geoms v1 = [] /\
  geoms v1 = geoms v /\
  artists (ax v1) = drawn_by (geoms v ++ onetime_geoms v ++ [g]) (prepared_axes v) /\
  Forall (fun vk =>
            onetime_geoms vk = [] /\ geoms vk = geoms v /\
            artists (ax vk) = drawn_by (geoms v) (prepared_axes v))
         (render_seq fs v1).
Proof.
  intros Hg Ho Hd v0 v1.
  assert (Ho' : forallb drawable (onetime_geoms v ++ [g]) = true).
  { rewrite forallb_app, Ho. cbn. rewrite Hd. reflexivity. }
  pose proof (render_drawable f v0 Hg Ho') as Hr. cbv zeta in Hr.
  subst v1. rewrite Hr. cbn [fst snd].
  split; [intros ->; reflexivity|].
  split; [reflexivity|]. split; [reflexivity|]. split.
  - unfold drawn_by. rewrite prepared_axes_eq.
    rewrite for_each_draw_concat
      by (rewrite forallb_app, Hg; exact Ho').
    reflexivity.
  - pose proof (render_seq_steady fs
                  (frame_done (concat (map own_artists (geoms v0 ++ onetime_geoms v0))) v0)
                  Hg eq_refl) as Hs.
    rewrite prepared_axes_eq in Hs |- *. exact Hs.
Qed.

(* a Drawable of the abstract class stops the frame before the one-time list
   is emptied *)
Lemma render_stops_at_abstract_geom (v : Viewer) (flag : bool) :
  forallb drawable (geoms v) = true ->
  onetime_geoms v = [] ->
  exists v',
    render flag (snd (add_onetime (Geom_ Geom_init) v)) = (inl NotImplementedError, v') /\
    onetime_geoms v' = [Geom_ Geom_init].
Proof.
  intros Hg Ho. unfold render.
  unfold bind at 1. rewrite prepare_axes_eq.
  unfold bind at 1. unfold draw_geoms.
  cbn [add_onetime modify snd geoms ax with_ax with_onetime_geoms].
  rewrite (for_each_draw_concat _ _ Hg).
  unfold bind at 1. unfold draw_onetime_geoms.
  cbn [geoms ax with_ax with_geoms onetime_geoms]. rewrite Ho.
  eexists. split; reflexivity.
Qed.

End Frames.



Section ViewerWitnesses.

#[local] Existing Instance one_black_pixel.

Lemma set_bounds_fails_iff_witness :
  set_bounds 1 0 0 1 (Viewer_init 700 700 100)
  = (inl AssertionError, Viewer_init 700 700 100) /\
  _bounds (snd (set_bounds (-2) 2 (-2) 2 (Viewer_init 700 700 100))) = (-2, 2, -2, 2).
Proof.
  split.
  - apply (set_bounds_fails_iff (Viewer_init 700 700 100) 1 0 0 1). left. lra.
  - apply (set_bounds_fails_iff (Viewer_init 700 700 100) (-2) 2 (-2) 2). lra.
Defined.


(** C3, counterexample.  A circle and, after it, a Drawable of the abstract
    class are registered one-time.  [render] draws the circle and raises
    [NotImplementedError]; the one-time list is not cleared, and the next
    [render] draws the circle again. *)
Lemma render_keeps_onetime_when_draw_raises :
  let g := make_circle 1 30 true in
  let v := snd (add_onetime (Geom_ Geom_init)
                  (snd (add_onetime g (Viewer_init 700 700 100)))) in
  let v1 := snd (render false v) in
  let v2 := snd (render false v1) in
  fst (render false v) = inl NotImplementedError /\
  onetime_geoms v1 = [g; Geom_ Geom_init] /\
  artists (ax v1) = [circle_patch Geom_init 1] /\
  artists (ax v2) = [circle_patch Geom_init 1].
Proof.
  cbv zeta.
  assert (E : forall u,
             geoms u = [] ->
             onetime_geoms u = [make_circle 1 30 true; Geom_ Geom_init] ->
             exists u',
               render false u = (inl NotImplementedError, u') /\
               geoms u' = [] /\
               onetime_geoms u' = [make_circle 1 30 true; Geom_ Geom_init] /\
               artists (ax u') = [circle_patch Geom_init 1]).
  { intros u Hg Ho. unfold render.
    unfold bind at 1. rewrite prepare_axes_eq.
    unfold bind at 1. unfold draw_geoms. cbn [geoms ax with_ax]. rewrite Hg.
    cbn [for_each].
    unfold bind at 1. unfold draw_onetime_geoms.
    cbn [geoms ax with_ax with_geoms onetime_geoms]. rewrite Ho.
    unfold make_circle. cbn [for_each draw]. rewrite Circle_draw_eq.
    eexists. split; [reflexivity|]. repeat split. }
  destruct (E (snd (add_onetime (Geom_ Geom_init)
                      (snd (add_onetime (make_circle 1 30 true)
                              (Viewer_init 700 700 100)))))
              eq_refl eq_refl) as (u1 & Hr1 & Hg1 & Ho1 & Ha1).
  rewrite Hr1. cbn [fst snd].
  destruct (E u1 Hg1 Ho1) as (u2 & Hr2 & _ & _ & Ha2).
  rewrite Hr2. cbn [snd]. repeat split; assumption.
Qed.

Lemma onetime_geoms_drawn_once_witness :
  let v := snd (add_geom (make_polyline [(0, 0); (1, 0)]) (Viewer_init 700 700 100)) in
  let g := make_circle 1 30 true in
  let v1 := snd (render false (snd (add_onetime g v))) in
  onetime_geoms v1 = [] /\ geoms v1 = geoms v /\
  Forall (fun vk => artists (ax vk) = drawn_by (geoms v) (prepared_axes v))
         (render_seq [true; false] v1).
Proof.
  intros v g v1.
  destruct (onetime_geoms_drawn_once (B := one_black_pixel) v g false [true; false])
    as (_ & H1 & H2 & _ & H4); try reflexivity.
  split; [exact H1|]. split; [exact H2|].
  eapply Forall_impl; [exact H4|]. cbv beta. intros vk (_ & _ & H). exact H.
Defined.

End ViewerWitnesses.

(** ** Pixels *)

Lemma nth_error_chunks {A : Type} (k n i : nat) (l : list A) :
  (i < n)%nat ->
  nth_error (np.chunks k n l) i = Some (firstn k (skipn (i * k) l)).
Proof.
  revert i l. induction n as [|n IH]; intros i l Hi; [lia|].
  destruct i as [|i]; cbn [np.chunks nth_error].
  - reflexivity.
  - rewrite IH by lia. rewrite skipn_skipn. do 3 f_equal. lia.
Qed.

Lemma length_chunks {A : Type} (k n : nat) (l : list A) :
  length (np.chunks k n l) = n.
Proof.
  revert l. induction n as [|n IH]; intro l; cbn [np.chunks length];
    [reflexivity | rewrite IH; reflexivity].
Qed.

Lemma chunks_full {A : Type} (k n : nat) (l : list A) :
  (n * k <= length l)%nat ->
  Forall (fun c => length c = k) (np.chunks k n l).
Proof.
  revert l. induction n as [|n IH]; intros l Hl; cbn [np.chunks]; constructor.
  - rewrite length_firstn. lia.
  - apply IH. rewrite length_skipn. lia.
Qed.

Lemma pixel_at_reshape (buf : list byte) (h w i j : nat) :
  (i < h)%nat -> (j < w)%nat ->
  pixel_at (map (np.chunks 4 w) (np.chunks (w * 4) h buf)) i j
  = Some (argb_at buf w i j).
Proof.
  intros Hi Hj. unfold pixel_at, argb_at.
  rewrite nth_error_map, nth_error_chunks by exact Hi. cbn [option_map].
  rewrite nth_error_chunks by exact Hj. f_equal.
  rewrite skipn_firstn_comm, firstn_firstn, skipn_skipn.
  replace (Nat.min 4 (w * 4 - j * 4)) with 4%nat by lia.
  do 2 f_equal. lia.
Qed.

Lemma pixel_at_take_channels {A : Type} (k : nat) (arr : list (list (list A))) (i j : nat) :
  pixel_at (np.take_channels k arr) i j = option_map (firstn k) (pixel_at arr i j).
Proof.
  unfold pixel_at, np.take_channels. rewrite nth_error_map.
  destruct (nth_error arr i) as [row|]; cbn [option_map]; [|reflexivity].
  apply nth_error_map.
Qed.

Lemma reshape3_take_channels_shape (buf : list byte) (h w : nat) (arr4 : list (list (list byte))) :
  np.reshape3 buf h w 4 = inr arr4 ->
  np.has_shape (np.take_channels 3 arr4) h w 3.
Proof.
  unfold np.reshape3. destruct (Nat.eqb_spec (length buf) (h * w * 4)) as [E|]; [|discriminate].
  intro H. injection H as <-. unfold np.has_shape, np.take_channels. split.
  - rewrite !length_map, length_chunks. reflexivity.
  - rewrite List.Forall_map, List.Forall_map.
    assert (Hrows : Forall (fun c => length c = (w * 4)%nat) (np.chunks (w * 4) h buf))
      by (apply chunks_full; lia).
    eapply List.Forall_impl; [|exact Hrows]. cbv beta. intros row Hrow. split.
    + rewrite length_map, length_chunks. reflexivity.
    + rewrite List.Forall_map.
      assert (Hpx : Forall (fun c => length c = 4%nat) (np.chunks 4 w row))
        by (apply chunks_full; lia).
      eapply List.Forall_impl; [|exact Hpx]. cbv beta. intros px Hp.
      rewrite length_firstn. lia.
Qed.

Section RenderOutput.

Context `{B : AggBackend}.

Lemma render_output (flag : bool) (v : Viewer) (out : option PixelArray) :
  fst (render flag v) = inr out ->
  inr out = output_of flag (canvas (snd (render flag v))).
Proof.
  destruct (render flag v) as [res v'] eqn:E. cbn [fst snd]. intros ->.
  unfold render in E.
  unfold bind at 1 in E. rewrite prepare_axes_eq in E.
  unfold bind at 1 in E.
  destruct (draw_geoms _) as [[e|[]] u1]; [discriminate|].
  unfold bind at 1 in E.
  destruct (draw_onetime_geoms _) as [[e|[]] u2]; [discriminate|].
  rewrite render_tail in E. injection E as E1 E2. rewrite <- E2, <- E1. reflexivity.
Qed.

(** C2, evaluated on the code.  When [render] returns a pixel array, the
    array has the shape (h, w, 3) of the canvas, and its pixel (i, j) holds
    the first three bytes of the canvas pixel in A, R, G, B order: alpha,
    red and green.  The blue byte is dropped, not the alpha byte. *)
Theorem render_returns_alpha_red_green (v : Viewer) (arr : PixelArray)
  (i j : nat) (a r g b : byte) :
  fst (render true v) = inr (Some arr) ->
  let c := canvas (snd (render true v)) in
  let w := fst (get_width_height c) in
  let h := snd (get_width_height c) in
  (i < h)%nat -> (j < w)%nat ->
  argb_at (tostring_argb c) w i j = [a; r; g; b] ->
  np.has_shape arr h w 3 /\ pixel_at arr i j = Some [a; r; g].
Proof.
  intros Hr c w h Hi Hj Hpx.
  apply render_output in Hr. fold c in Hr. unfold output_of in Hr.
  fold w h in Hr.
  destruct (np.reshape3 (tostring_argb c) h w 4) as [e|arr4] eqn:E; [discriminate|].
  injection Hr as ->. split.
  - exact (reshape3_take_channels_shape _ _ _ _ E).
  - rewrite pixel_at_take_channels.
    unfold np.reshape3 in E. destruct (Nat.eqb _ _); [|discriminate].
    injection E as <-. rewrite pixel_at_reshape by assumption.
    rewrite Hpx. reflexivity.
Qed.

End RenderOutput.

Section RenderWitness.

#[local] Existing Instance one_black_pixel.

Lemma render_returns_alpha_red_green_witness :
  let v := snd (add_geom (make_circle 10 30 true) (Viewer_init 1 1 100)) in
  fst (render true v) = inr (Some [[[xff; x00; x00]]]%byte) /\
  pixel_at [[[xff; x00; x00]]]%byte 0 0 = Some [xff; x00; x00]%byte.
Proof.
  intro v.
  assert (Hr : render true v
               = (inr (Some [[[xff; x00; x00]]]%byte),
                  frame_done (concat (map own_artists (geoms v ++ onetime_geoms v))) v)).
  { rewrite (render_drawable true v) by reflexivity. reflexivity. }
  split; [rewrite Hr; reflexivity|].
  refine (proj2 (render_returns_alpha_red_green v [[[xff; x00; x00]]]%byte
                   0 0 xff x00 x00 x00 _ _ _ _)).
  - rewrite Hr. reflexivity.
  - rewrite Hr. cbn. lia.
  - rewrite Hr. cbn. lia.
  - rewrite Hr. reflexivity.
Defined.

End RenderWitness.

(** ** The scenario loader *)


Section LoaderWitness.

#[local] Existing Instance one_scenario.


End LoaderWitness.

(** * Further properties of the code *)

(** ** Colours *)

Lemma clamp01_idempotent (x : R) : _clamp01 (_clamp01 x) = _clamp01 x.
Proof. apply clamp01_inside, clamp01_range. Qed.

Lemma clamp01_low (x : R) : x <= 0 -> _clamp01 x = 0.
Proof.
  intro H. unfold _clamp01. rewrite Rmin_right by lra. apply Rmax_left. exact H.
Qed.

Lemma clamp01_high (x : R) : 1 <= x -> _clamp01 x = 1.
Proof.
  intro H. unfold _clamp01. rewrite Rmin_left by exact H. apply Rmax_right. lra.
Qed.

(** X1.  [Color] clamps each channel on its own into [0, 1]: a channel below
    0 becomes 0, a channel above 1 becomes 1, a channel inside is kept; so
    building a Color from the channels of a Color changes nothing. *)
Theorem Color_init_clamps (r g b a : R) :
  rgba_in 0 1 (vec4 (Color_init (r, g, b, a))) /\
  Color_init (vec4 (Color_init (r, g, b, a))) = Color_init (r, g, b, a) /\
  (forall x, x <= 0 -> _clamp01 x = 0) /\
  (forall x, 1 <= x -> _clamp01 x = 1) /\
  (forall x, 0 <= x <= 1 -> _clamp01 x = x).
Proof.
  split; [|split; [|split; [|split]]].
  - unfold Color_init, rgba_in. cbn [vec4]. repeat split; apply clamp01_range.
  - unfold Color_init. cbn [vec4]. rewrite !clamp01_idempotent. reflexivity.
  - exact clamp01_low.
  - exact clamp01_high.
  - exact clamp01_inside.
Qed.

Lemma filter_not_color_app_color (l : list Attr) (c : Color) :
  List.filter (fun a => negb (is_Color a)) (l ++ [AColor c])
  = List.filter (fun a => negb (is_Color a)) l.
Proof. rewrite List.filter_app. cbn. apply app_nil_r. Qed.

Lemma filter_not_color_idem (l : list Attr) :
  List.filter (fun a => negb (is_Color a)) (List.filter (fun a => negb (is_Color a)) l)
  = List.filter (fun a => negb (is_Color a)) l.
Proof.
  induction l as [|a l IH]; [reflexivity|].
  destruct a; cbn [List.filter is_Color negb]; rewrite ?IH; reflexivity.
Qed.

Lemma with_state_with_state (f h : GeomState -> GeomState) (g : Geom) :
  with_state f (with_state h g) = with_state (fun s => f (h s)) g.
Proof. destruct g; reflexivity. Qed.

Lemma with_state_ext (f h : GeomState -> GeomState) (g : Geom) :
  (forall s, f s = h s) -> with_state f g = with_state h g.
Proof. intro E. destruct g; cbn; rewrite E; reflexivity. Qed.

(** X2.  The last [set_color] wins and leaves no trace of the earlier one:
    setting a colour after another colour gives the Drawable that setting
    the second colour alone gives; in particular setting the same colour
    twice is the same as setting it once, attribute sequence included. *)
Theorem set_color_overrides (r1 g1 b1 a1 r2 g2 b2 a2 : R) (g : Geom) :
  set_color r2 g2 b2 a2 (set_color r1 g1 b1 a1 g) = set_color r2 g2 b2 a2 g.
Proof.
  unfold set_color. rewrite with_state_with_state. apply with_state_ext.
  intro s. cbn [_color attrs _linewidth].
  rewrite filter_not_color_app_color, filter_not_color_idem. reflexivity.
Qed.

Lemma transforms_of_filter_not_color (l : list Attr) :
  transforms_of (List.filter (fun a => negb (is_Color a)) l) = transforms_of l.
Proof.
  induction l as [|a l IH]; [reflexivity|].
  destruct a; cbn [List.filter is_Color negb transforms_of]; rewrite ?IH; reflexivity.
Qed.

Lemma transforms_of_set_color (r g' b alpha : R) (g : Geom) :
  transforms_of (attrs (state (set_color r g' b alpha g)))
  = transforms_of (attrs (state g)).
Proof.
  unfold set_color. rewrite state_with_state. cbn [attrs].
  rewrite transforms_of_app, transforms_of_filter_not_color. cbn. apply app_nil_r.
Qed.

Lemma effective_point_set_color (r g' b alpha : R) (g : Geom) (p : R * R) :
  effective_point (set_color r g' b alpha g) p = effective_point g p.
Proof. rewrite !effective_point_last_first, transforms_of_set_color. reflexivity. Qed.

(** X3.  The effective transform of a Drawable depends on its Transform
    attributes only: [set_color], [set_linewidth] and [add_attr] of a Color
    or LineWidth attribute leave the transforms, their order and the place
    of every local point as they were. *)
Theorem effective_transform_ignores_styling (g : Geom) (p : R * R) :
  (forall r g' b alpha,
     transforms_of (attrs (state (set_color r g' b alpha g)))
     = transforms_of (attrs (state g)) /\
     effective_point (set_color r g' b alpha g) p = effective_point g p) /\
  (forall x, effective_point (set_linewidth x g) p = effective_point g p) /\
  (forall a, is_Transform a = false ->
     effective_point (add_attr a g) p = effective_point g p).
Proof.
  split; [|split].
  - intros r g' b alpha. split.
    + apply transforms_of_set_color.
    + apply effective_point_set_color.
  - intro x. rewrite !effective_point_last_first. unfold set_linewidth.
    rewrite state_with_state. reflexivity.
  - intros a Ha. rewrite !effective_point_last_first. unfold add_attr.
    rewrite state_with_state. cbn [attrs]. rewrite transforms_of_app.
    destruct a; [| |discriminate Ha]; cbn; rewrite app_nil_r; reflexivity.
Qed.

Lemma apply_last_first_app (l1 l2 : list Transform) (p : R * R) :
  apply_last_first (l1 ++ l2) p = apply_last_first l1 (apply_last_first l2 p).
Proof. induction l1 as [|t l1 IH]; cbn; [reflexivity | rewrite IH; reflexivity]. Qed.

Lemma effective_point_add_transform (t : Transform) (g : Geom) (p : R * R) :
  effective_point (add_attr (ATransform t) g) p
  = effective_point g (resolve_point t p).
Proof.
  rewrite !effective_point_last_first. unfold add_attr.
  rewrite state_with_state. cbn [attrs].
  rewrite transforms_of_app, apply_last_first_app. reflexivity.
Qed.

(** X4.  A Transform attached to a Drawable acts on the local point before
    all the transforms attached earlier: the place of a point after
    [add_attr] of a Transform is the earlier place of the point that the new
    transform (scale, rotate, translate) makes of it. *)
Theorem add_attr_transform_acts_first (t : Transform) (g : Geom) (p : R * R) :
  effective_point (add_attr (ATransform t) g) p
  = effective_point g (resolve_point t p).
Proof. apply effective_point_add_transform. Qed.

Lemma sin2_cos2_mult (x : R) : sin x * sin x + cos x * cos x = 1.
Proof. pose proof (sin2_cos2 x) as H. unfold Rsqr in H. exact H. Qed.

(** X5.  A Transform with scale (1, 1) is a rigid motion: [as_affine] keeps
    the distance between any two points, whatever the rotation and the
    translation. *)
Theorem as_affine_unit_scale_isometry (tr : R * R) (rot : R) (p q : R * R) :
  let T := as_affine (Transform_init tr rot (1, 1)) in
  dist2 (mtransforms.transform_point T p) (mtransforms.transform_point T q)
  = dist2 p q.
Proof.
  intro T. subst T. rewrite as_affine_all_eq, !as_affine_all_point.
  destruct tr as [tx ty], p as [px py], q as [qx qy].
  unfold resolve_point, translate_point, rotate_point, scale_point, dist2.
  cbn [Transform_init translation rotation scale fst snd].
  pose proof (sin2_cos2_mult rot) as H.
  set (s := sin rot) in *. set (c := cos rot) in *.
  replace ((c * (1 * px) - s * (1 * py) + tx - (c * (1 * qx) - s * (1 * qy) + tx)) *
           (c * (1 * px) - s * (1 * py) + tx - (c * (1 * qx) - s * (1 * qy) + tx)) +
           (s * (1 * px) + c * (1 * py) + ty - (s * (1 * qx) + c * (1 * qy) + ty)) *
           (s * (1 * px) + c * (1 * py) + ty - (s * (1 * qx) + c * (1 * qy) + ty)))
    with ((s * s + c * c) * ((px - qx) * (px - qx) + (py - qy) * (py - qy))) by ring.
  rewrite H. ring.
Qed.

(** ** Drawing *)

Lemma resolve_point_origin (T : Transform) : resolve_point T (0, 0) = translation T.
Proof.
  destruct T as [[tx ty] th [sx sy]].
  unfold resolve_point, translate_point, rotate_point, scale_point.
  cbn [translation rotation scale fst snd]. f_equal; ring.
Qed.

Lemma get_colors_set_color (r g b alpha : R) (s : GeomState) (l : list Attr) (lw : LineWidth) :
  _get_colors (mkGeomState (Color_init (r, g, b, alpha)) l lw)
  = ((_clamp01 r, _clamp01 g, _clamp01 b, _clamp01 alpha),
     (0.5 * _clamp01 r, 0.5 * _clamp01 g, 0.5 * _clamp01 b, 0.5 * _clamp01 alpha)).
Proof. reflexivity. Qed.

(** X6.  A circle that carries one Transform and a set colour is drawn as
    one circle patch of its radius, centred in data space at the
    transform's translation (scale and rotation leave the centre in place),
    filled with the clamped colour and edged with half of it, alpha
    included, at stroke width 1. *)
Theorem circle_drawn_at_translation (radius : R) (res : Z) (filled : bool)
  (T : Transform) (r g b alpha : R) (a : Axes) :
  let geom := set_color r g b alpha
                (add_attr (ATransform T) (make_circle radius res filled)) in
  exists t,
    draw geom a
    = (inr tt, geom,
       add_all [MplCircle (0, 0) radius
                  (_clamp01 r, _clamp01 g, _clamp01 b, _clamp01 alpha)
                  (0.5 * _clamp01 r, 0.5 * _clamp01 g, 0.5 * _clamp01 b,
                   0.5 * _clamp01 alpha)
                  1 t] a) /\
    mtransforms.transform_point t (0, 0) = translation T.
Proof.
  intro geom. exists (_collect_transform (state geom)). split.
  - subst geom. unfold make_circle, add_attr, set_color. cbn [with_state draw state].
    rewrite Circle_draw_eq. reflexivity.
  - change (effective_point geom (0, 0) = translation T).
    subst geom.
    rewrite effective_point_set_color, effective_point_add_transform,
      resolve_point_origin.
    rewrite effective_point_last_first. reflexivity.
Qed.

Lemma apply_ops_snoc (ops : list GeomOp) (op : GeomOp) (g : Geom) :
  apply_ops (ops ++ [op]) g = apply_op op (apply_ops ops g).
Proof. unfold apply_ops. rewrite fold_left_app. reflexivity. Qed.

Lemma color_in_unit_step (op : GeomOp) (g : Geom) :
  rgba_in 0 1 (vec4 (_color (state g))) ->
  rgba_in 0 1 (vec4 (_color (state (apply_op op g)))).
Proof.
  intro H. destruct op as [attr|r g' b alpha|x]; cbn [apply_op].
  - unfold add_attr. rewrite state_with_state. exact H.
  - unfold set_color. rewrite state_with_state. cbn [_color].
    unfold Color_init, rgba_in. cbn [vec4]. repeat split; apply clamp01_range.
  - unfold set_linewidth. rewrite state_with_state. exact H.
Qed.

Lemma color_in_unit_run (ops : list GeomOp) (g : Geom) :
  rgba_in 0 1 (vec4 (_color (state g))) ->
  rgba_in 0 1 (vec4 (_color (state (apply_ops ops g)))).
Proof.
  revert g. induction ops as [|op ops IH]; intros g H; [exact H|].
  cbn [apply_ops fold_left]. apply IH, color_in_unit_step, H.
Qed.

(** X7.  Whatever sequence of [add_attr], [set_color] and [set_linewidth]
    calls a new Drawable goes through, with whatever arguments, the fill
    colour it draws with has every channel in [0, 1] and the edge colour has
    every channel in [0, 0.5]. *)
Theorem drawn_colors_in_range (g : Geom) (ops : list GeomOp) :
  state g = Geom_init ->
  rgba_in 0 1 (fst (_get_colors (state (apply_ops ops g)))) /\
  rgba_in 0 0.5 (snd (_get_colors (state (apply_ops ops g)))).
Proof.
  intro Hinit.
  assert (H : rgba_in 0 1 (vec4 (_color (state (apply_ops ops g))))).
  { apply color_in_unit_run. rewrite Hinit. cbn [Geom_init _color].
    unfold Color_init, rgba_in. cbn [vec4]. repeat split; apply clamp01_range. }
  unfold _get_colors.
  destruct (vec4 (_color (state (apply_ops ops g)))) as [[[r g'] b] al].
  cbn [fst snd]. split; [exact H|].
  unfold rgba_in in *. destruct H as (Hr & Hg & Hb & Ha). repeat split; lra.
Qed.

Lemma drawn_colors_in_range_witness :
  rgba_in 0 1
    (fst (_get_colors
            (state (apply_ops [OpSetColor 2 (-1) 0.5 1; OpSetLinewidth 3]
                      (make_circle 1 30 true))))).
Proof.
  apply (drawn_colors_in_range (make_circle 1 30 true)
           [OpSetColor 2 (-1) 0.5 1; OpSetLinewidth 3]).
  reflexivity.
Defined.

Lemma collect_transform_snoc_other (s : GeomState) (a : Attr) :
  is_Transform a = false ->
  _collect_transform (mkGeomState (_color s) (attrs s ++ [a]) (_linewidth s))
  = _collect_transform s.
Proof.
  intro Ha. unfold _collect_transform. cbn [attrs]. rewrite rev_app_distr.
  destruct a; [| |discriminate Ha]; reflexivity.
Qed.

Lemma leaf_draw_same_style (s s' : GeomState) :
  _collect_transform s' = _collect_transform s ->
  _get_colors s' = _get_colors s ->
  _get_linewidth s' = _get_linewidth s ->
  (forall v a, FilledPolygon_draw s' v a = FilledPolygon_draw s v a) /\
  (forall v close a, PolyLine_draw s' v close a = PolyLine_draw s v close a) /\
  (forall radius a, Circle_draw s' radius a = Circle_draw s radius a).
Proof.
  intros Ht Hc Hl. split; [|split].
  - intros v a. destruct v as [|p v].
    + rewrite !FilledPolygon_draw_empty. reflexivity.
    + rewrite !FilledPolygon_draw_eq by discriminate. unfold polygon_patch.
      rewrite Ht, Hc, Hl. reflexivity.
  - intros v close a. destruct v as [|p v].
    + rewrite !PolyLine_draw_empty. reflexivity.
    + rewrite !PolyLine_draw_nonempty by discriminate.
      unfold polyline_line, polyline_points. rewrite Ht, Hc, Hl. reflexivity.
  - intros radius a. rewrite !Circle_draw_eq. unfold circle_patch.
    rewrite Ht, Hc, Hl. reflexivity.
Qed.

(** X8.  Only the colour and stroke-width slots style a drawing: a Color or
    LineWidth attribute attached with [add_attr] changes neither the outcome
    of [draw] nor anything it puts on the axes. *)
Theorem attached_style_attrs_not_drawn (g : Geom) (attr : Attr) (a : Axes) :
  is_Transform attr = false ->
  fst (fst (draw (add_attr attr g) a)) = fst (fst (draw g a)) /\
  snd (draw (add_attr attr g) a) = snd (draw g a).
Proof.
  intro Ha.
  assert (Hs : forall s,
             let s' := mkGeomState (_color s) (attrs s ++ [attr]) (_linewidth s) in
             (forall v a, FilledPolygon_draw s' v a = FilledPolygon_draw s v a) /\
             (forall v close a, PolyLine_draw s' v close a = PolyLine_draw s v close a) /\
             (forall radius a, Circle_draw s' radius a = Circle_draw s radius a)).
  { intros s s'. apply leaf_draw_same_style.
    - apply collect_transform_snoc_other, Ha.
    - reflexivity.
    - reflexivity. }
  destruct g as [s|s v|s v close|s radius|s gs]; unfold add_attr; cbn [with_state].
  - split; reflexivity.
  - cbn [draw]. destruct (Hs s) as (-> & _ & _).
    destruct (FilledPolygon_draw s v a). split; reflexivity.
  - cbn [draw]. destruct (Hs s) as (_ & -> & _).
    destruct (PolyLine_draw s v close a). split; reflexivity.
  - cbn [draw]. destruct (Hs s) as (_ & _ & ->).
    destruct (Circle_draw s radius a). split; reflexivity.
  - apply compound_draw_ignores_state.
Qed.

Lemma attached_style_attrs_not_drawn_witness :
  snd (draw (add_attr (AColor (Color_init (1, 0, 0, 1))) (make_circle 1 30 true))
         Axes_clear)
  = snd (draw (make_circle 1 30 true) Axes_clear).
Proof.
  apply (attached_style_attrs_not_drawn (make_circle 1 30 true)
           (AColor (Color_init (1, 0, 0, 1))) Axes_clear).
  reflexivity.
Defined.

Lemma own_artists_uniform (g : Geom) (r : Exn + unit) (l : list Artist) :
  (forall a, draw g a = (r, g, add_all l a)) -> own_artists g = l.
Proof. intro H. unfold own_artists. rewrite H. cbn [snd]. apply new_artists_add_all. Qed.

(** X9.  [draw] only adds to the axes: it leaves the Drawable, the window,
    the face colour, the aspect and the axis switch of the axes as they
    were, keeps the artists already there and puts its own after them; what
    it adds and whether it raises do not depend on the axes it draws on. *)
Theorem draw_only_appends (g : Geom) (a : Axes) :
  snd (fst (draw g a)) = g /\
  fst (fst (draw g a)) = fst (fst (draw g Axes_clear)) /\
  artists (snd (draw g a)) = artists a ++ own_artists g /\
  xlim (snd (draw g a)) = xlim a /\
  ylim (snd (draw g a)) = ylim a /\
  facecolor_ (snd (draw g a)) = facecolor_ a /\
  aspect_equal (snd (draw g a)) = aspect_equal a /\
  axison (snd (draw g a)) = axison a.
Proof.
  destruct (draw_uniform g) as (r & l & H).
  rewrite (own_artists_uniform g r l H), !H. cbn [fst snd].
  repeat split.
Qed.

Lemma list_sum_length_concat {A : Type} (ls : list (list A)) :
  length (concat ls) = list_sum (map (@length A) ls).
Proof.
  induction ls as [|l ls IH]; cbn [concat map list_sum]; [reflexivity|].
  rewrite length_app, IH. reflexivity.
Qed.

Lemma own_artists_compound (s : GeomState) (gs : list Geom) :
  forallb drawable gs = true ->
  own_artists (Compound s gs) = concat (map own_artists gs).
Proof.
  intro Hd. unfold own_artists at 1. cbn [draw].
  rewrite (for_each_draw_concat gs Axes_clear Hd). cbn [snd].
  apply new_artists_add_all.
Qed.

(** X10.  A Drawable that can be drawn puts one artist on the axes for each
    primitive (polygon, polyline or circle) under it, however the
    primitives are nested in Compounds. *)
Theorem one_artist_per_primitive (g : Geom) :
  drawable g = true -> length (own_artists g) = primitive_count g.
Proof.
  induction g as [s|s v|s v close|s radius|s gs IH] using Geom_nested_ind;
    cbn [drawable primitive_count]; intro Hd.
  - discriminate.
  - destruct v as [|p v]; [discriminate|].
    unfold own_artists. cbn [draw].
    rewrite FilledPolygon_draw_eq by discriminate. reflexivity.
  - destruct v as [|p v]; [discriminate|].
    unfold own_artists. cbn [draw].
    rewrite PolyLine_draw_nonempty by discriminate. reflexivity.
  - unfold own_artists. cbn [draw]. rewrite Circle_draw_eq. reflexivity.
  - rewrite (own_artists_compound s gs Hd), list_sum_length_concat, map_map.
    f_equal. rewrite forallb_forall in Hd. rewrite List.Forall_forall in IH.
    apply map_ext_in. intros x Hx. apply IH; [exact Hx | apply Hd, Hx].
Qed.

Lemma one_artist_per_primitive_witness :
  length (own_artists (Compound Geom_init [make_capsule 10 4; make_circle 1 30 true]))
  = 4%nat.
Proof.
  apply (one_artist_per_primitive
           (Compound Geom_init [make_capsule 10 4; make_circle 1 30 true])).
  reflexivity.
Defined.

Lemma for_each_app {A St : Type} (f : A -> St -> (Exn + unit) * A * St)
  (l1 l2 : list A) (s : St) :
  for_each f (l1 ++ l2) s
  = match for_each f l1 s with
    | (inl e, l1', s') => (inl e, l1' ++ l2, s')
    | (inr _, l1', s') =>
        let '(r, l2', s'') := for_each f l2 s' in (r, l1' ++ l2', s'')
    end.
Proof.
  revert s. induction l1 as [|x l1 IH]; intro s; cbn [app for_each].
  - destruct (for_each f l2 s) as [[r l2'] s']. reflexivity.
  - destruct (f x s) as [[[e|u] x'] s1]; [reflexivity|].
    rewrite IH. destruct (for_each f l1 s1) as [[[e|u'] l1'] s2]; [reflexivity|].
    destruct (for_each f l2 s2) as [[r l2'] s3]. reflexivity.
Qed.

(** X11.  When the [draw] of a child of a Compound raises, the Compound's
    [draw] raises the same exception at once: the children before it stay
    drawn on the axes, the children after it are never drawn. *)
Theorem compound_draw_stops_at_failure (s : GeomState) (before after : list Geom)
  (g : Geom) (e : Exn) (a : Axes) :
  forallb drawable before = true ->
  fst (fst (draw g Axes_clear)) = inl e ->
  draw (Compound s (before ++ g :: after)) a
  = (inl e, Compound s (before ++ g :: after),
     add_all (concat (map own_artists before) ++ own_artists g) a).
Proof.
  intros Hb He. cbn [draw]. rewrite for_each_app.
  rewrite (for_each_draw_concat before a Hb). cbn [for_each].
  destruct (draw_uniform g) as (r & l & H).
  rewrite H in He. cbn [fst] in He. subst r.
  rewrite (own_artists_uniform g (inl e) l H), H, add_all_add_all. reflexivity.
Qed.

Lemma compound_draw_stops_at_failure_witness :
  draw (Compound Geom_init
          ([make_circle 1 30 true] ++ make_polyline [] :: [make_circle 2 30 true]))
    Axes_clear
  = (inl IndexError,
     Compound Geom_init
       ([make_circle 1 30 true] ++ make_polyline [] :: [make_circle 2 30 true]),
     add_all (concat (map own_artists [make_circle 1 30 true])
              ++ own_artists (make_polyline [])) Axes_clear).
Proof.
  apply (compound_draw_stops_at_failure Geom_init [make_circle 1 30 true]
           [make_circle 2 30 true] (make_polyline []) IndexError Axes_clear).
  - reflexivity.
  - reflexivity.
Defined.

(** ** Keyword attributes and the convenience helpers *)



(* the Drawable with another state, its geometry kept *)
Lemma set_color_star_restyles (val : PyVal) (geom geom' : Geom) :
  set_color_star val geom = inr geom' ->
  exists r g b alpha, geom' = set_color r g b alpha geom.
Proof.
  unfold set_color_star. destruct val as [x|xs]; [discriminate|].
  destruct xs as [|r [|g [|b [|al [|]]]]]; try discriminate; intro H; injection H as <-.
  - exists r, g, b, 1. reflexivity.
  - exists r, g, b, al. reflexivity.
Qed.

Lemma set_linewidth_val_restyles (val : PyVal) (geom geom' : Geom) :
  set_linewidth_val val geom = inr geom' ->
  exists x, geom' = set_linewidth x geom.
Proof.
  unfold set_linewidth_val. destruct val as [x|xs]; [|discriminate].
  intro H. injection H as <-. exists x. reflexivity.
Qed.

Lemma add_attrs_restyles (geom geom' : Geom) (kw : gmap string PyVal) :
  _add_attrs geom kw = inr geom' ->
  exists f, geom' = with_state f geom /\
            forall s, transforms_of (attrs (f s)) = transforms_of (attrs s).
Proof.
  unfold _add_attrs.
  destruct (kw !! "color"%string) as [c|].
  - destruct (set_color_star c geom) as [e|g1] eqn:E1; [discriminate|].
    apply set_color_star_restyles in E1 as (r & g & b & al & ->).
    destruct (kw !! "linewidth"%string) as [x|].
    + intro E2. apply set_linewidth_val_restyles in E2 as (w & ->).
      unfold set_linewidth, set_color. rewrite with_state_with_state.
      eexists. split; [reflexivity|]. intro s. cbn [attrs].
      rewrite transforms_of_app, transforms_of_filter_not_color. cbn. apply app_nil_r.
    + intro E2. injection E2 as <-. unfold set_color.
      eexists. split; [reflexivity|]. intro s. cbn [attrs].
      rewrite transforms_of_app, transforms_of_filter_not_color. cbn. apply app_nil_r.
  - destruct (kw !! "linewidth"%string) as [x|].
    + intro E2. apply set_linewidth_val_restyles in E2 as (w & ->).
      unfold set_linewidth. eexists. split; [reflexivity|]. reflexivity.
    + intro E2. injection E2 as <-. exists (fun s => s). split; [|reflexivity].
      destruct geom; reflexivity.
Qed.

Lemma add_attrs_only_TypeError (geom : Geom) (attrs : gmap string PyVal) (e : Exn) :
  _add_attrs geom attrs = inl e -> e = TypeError.
Proof.
  unfold _add_attrs.
  destruct (attrs !! "color"%string) as [c|].
  - destruct (set_color_star c geom) as [e1|g1] eqn:E1.
    + intro H. injection H as <-. unfold set_color_star in E1.
      destruct c as [x|xs]; [congruence|].
      destruct xs as [|r [|g [|b [|al [|]]]]]; congruence.
    + destruct (attrs !! "linewidth"%string) as [x|]; [|discriminate].
      unfold set_linewidth_val. destruct x; congruence.
  - destruct (attrs !! "linewidth"%string) as [x|]; [|discriminate].
    unfold set_linewidth_val. destruct x; congruence.
Qed.

(* the common body of the four helpers *)
Lemma register_styled (geom0 : Geom) (attrs : gmap string PyVal) (v : Viewer) :
  let call := bind (lift (_add_attrs geom0 attrs))
                (fun geom => bind (add_onetime geom) (fun _ => ret geom)) v in
  (call = (inl TypeError, v) /\ _add_attrs geom0 attrs = inl TypeError) \/
  (exists geom,
     _add_attrs geom0 attrs = inr geom /\
     call = (inr geom, with_onetime_geoms (onetime_geoms v ++ [geom]) v)).
Proof.
  intro call. subst call. unfold bind, lift.
  destruct (_add_attrs geom0 attrs) as [e|geom] eqn:E.
  - left. apply add_attrs_only_TypeError in E as E'. subst e. split; reflexivity.
  - right. exists geom. split; reflexivity.
Qed.


Lemma collect_transform_no_transforms (s : GeomState) (p : R * R) :
  transforms_of (attrs s) = [] ->
  mtransforms.transform_point (_collect_transform s) p = p.
Proof.
  intro H.
  change (effective_point (Geom_ s) p = p).
  rewrite effective_point_last_first. cbn [state]. rewrite H. reflexivity.
Qed.

(** X13.  A successful [draw_line start end_] registers one one-time
    Drawable that can be drawn and whose drawing is a single line of one
    segment, from [start] to [end_] in data space, whatever colour and
    stroke width the attributes give it. *)
Theorem draw_line_one_segment (start end_ : R * R) (attrs : gmap string PyVal)
  (v v' : Viewer) (geom : Geom) :
  draw_line start end_ attrs v = (inr geom, v') ->
  onetime_geoms v' = onetime_geoms v ++ [geom] /\
  geoms v' = geoms v /\
  drawable geom = true /\
  exists line,
    own_artists geom = [line] /\ segments line = [(start, end_)].
Proof.
  intro Hcall.
  unfold draw_line in Hcall. cbv zeta in Hcall.
  destruct (register_styled (PolyLine Geom_init [start; end_] false) attrs v)
    as [[H _]|(geom1 & Hstyle & H)];
    cbv zeta in H; rewrite H in Hcall; [discriminate|].
  injection Hcall as <- <-. split; [reflexivity|]. split; [reflexivity|].
  apply add_attrs_restyles in Hstyle as (f & -> & Hf). cbn [with_state].
  split; [reflexivity|].
  exists (polyline_line (f Geom_init) [start; end_] false). split.
  - unfold own_artists. cbn [draw].
    rewrite PolyLine_draw_nonempty by discriminate. reflexivity.
  - rewrite segments_polyline_line. unfold polyline_points, mtransforms.transform.
    cbn [map]. rewrite !collect_transform_no_transforms by (rewrite Hf; reflexivity).
    reflexivity.
Qed.

Section HelperWitness.

#[local] Existing Instance one_black_pixel.

Lemma draw_line_one_segment_witness :
  let v := Viewer_init 700 700 100 in
  let '(r, v') := draw_line (0, 0) (1, 1) ∅ v in
  onetime_geoms v' = onetime_geoms v ++ [PolyLine Geom_init [(0, 0); (1, 1)] false].
Proof.
  cbv zeta.
  destruct (draw_line (0, 0) (1, 1) ∅ (Viewer_init 700 700 100)) as [r v'] eqn:E.
  assert (Hr : r = inr (PolyLine Geom_init [(0, 0); (1, 1)] false)).
  { unfold draw_line, _add_attrs in E. rewrite !lookup_empty in E.
    injection E as <- _. reflexivity. }
  subst r.
  exact (proj1 (draw_line_one_segment (0, 0) (1, 1) ∅ (Viewer_init 700 700 100) v'
                  (PolyLine Geom_init [(0, 0); (1, 1)] false) E)).
Defined.

End HelperWitness.

(** ** Frames of the viewer *)

Section MoreFrames.

Context `{B : AggBackend}.

(* the two ways a frame ends: a Drawable raised while the lists were drawn,
   or the lists were drawn and the canvas rasterized *)
Lemma render_outcomes (flag : bool) (v : Viewer) :
  let drawn := for_each draw (geoms v ++ onetime_geoms v) (axes_for (_bounds v)) in
  match fst (fst drawn) with
  | inl e =>
      render flag v
      = (inl e,
         mkViewer (width v) (height v) (dpi v) (canvas v) (snd drawn)
           (geoms v) (onetime_geoms v) (_bounds v))
  | inr _ =>
      render flag v
      = (output_of flag (canvas_draw (canvas v) (snd drawn)),
         mkViewer (width v) (height v) (dpi v)
           (canvas_draw (canvas v) (snd drawn)) (snd drawn)
           (geoms v) [] (_bounds v))
  end.
Proof.
  cbv zeta. rewrite for_each_app.
  remember (render flag v) as R eqn:ER.
  unfold render in ER. unfold bind at 1 in ER. rewrite prepare_axes_eq in ER.
  unfold bind at 1 in ER. unfold draw_geoms in ER. cbn [geoms ax with_ax] in ER.
  destruct (for_each_draw_uniform (geoms v)) as (r1 & l1 & H1).
  rewrite H1 in ER. rewrite H1.
  destruct r1 as [e|[]]; cbn [fst snd]; [subst R; reflexivity|].
  unfold bind at 1 in ER. unfold draw_onetime_geoms in ER.
  cbn [geoms ax with_ax with_geoms onetime_geoms] in ER.
  destruct (for_each_draw_uniform (onetime_geoms v)) as (r2 & l2 & H2).
  rewrite H2 in ER. rewrite H2.
  destruct r2 as [e|[]]; cbn [fst snd]; [subst R; reflexivity|].
  rewrite render_tail in ER. subst R. reflexivity.
Qed.

(** X15.  The output mode of [render] changes what is returned and nothing
    else: the viewer after [render(True)] is the viewer after
    [render(False)], also when a Drawable raises and when the pixel array
    cannot be built. *)
Theorem render_state_independent_of_mode (v : Viewer) :
  snd (render true v) = snd (render false v).
Proof.
  pose proof (render_outcomes true v) as Ht.
  pose proof (render_outcomes false v) as Hf. cbv zeta in Ht, Hf.
  destruct (fst (fst (for_each draw (geoms v ++ onetime_geoms v) (axes_for (_bounds v)))));
    rewrite Ht, Hf; reflexivity.
Qed.

(** X16.  Every frame starts from cleared axes: the axes after [render]
    depend on the two lists and the bounds only, not on what the axes or
    the canvas held before, and its window is the stored bounds. *)
Theorem render_axes_from_lists_and_bounds (flag flag' : bool) (v v' : Viewer) :
  geoms v = geoms v' ->
  onetime_geoms v = onetime_geoms v' ->
  _bounds v = _bounds v' ->
  ax (snd (render flag v)) = ax (snd (render flag' v')) /\
  (xlim (ax (snd (render flag v))), ylim (ax (snd (render flag v))))
  = (let '(l, r, b, t) := _bounds v in ((l, r), (b, t))).
Proof.
  intros Hg Ho Hb.
  pose proof (render_outcomes flag v) as H1.
  pose proof (render_outcomes flag' v') as H2. cbv zeta in H1, H2.
  rewrite <- Hg, <- Ho, <- Hb in H2.
  destruct (for_each_draw_uniform (geoms v ++ onetime_geoms v)) as (r & l & H).
  rewrite !H in H1, H2. cbn [fst snd] in H1, H2.
  destruct r as [e|[]]; rewrite H1, H2; cbn [snd ax]; (split; [reflexivity|]);
    destruct (_bounds v) as [[[l0 r0] b0] t0]; reflexivity.
Qed.

(** X17.  When the [draw] of a registered Drawable raises, [render] raises
    the same exception and the frame is abandoned: both lists stay as they
    were, the one-time list is not cleared, and the canvas is not
    rasterized. *)
Theorem render_failure_keeps_lists (flag : bool) (v : Viewer) (e : Exn) :
  fst (fst (for_each draw (geoms v ++ onetime_geoms v) Axes_clear)) = inl e ->
  fst (render flag v) = inl e /\
  geoms (snd (render flag v)) = geoms v /\
  onetime_geoms (snd (render flag v)) = onetime_geoms v /\
  canvas (snd (render flag v)) = canvas v.
Proof.
  intro He. pose proof (render_outcomes flag v) as H. cbv zeta in H.
  destruct (for_each_draw_uniform (geoms v ++ onetime_geoms v)) as (r & l & Hu).
  rewrite Hu in He. rewrite Hu in H. cbn [fst snd] in He, H. subst r.
  rewrite H. repeat split.
Qed.

Lemma render_keeps_config (flag : bool) (v : Viewer) :
  width (snd (render flag v)) = width v /\
  height (snd (render flag v)) = height v /\
  dpi (snd (render flag v)) = dpi v /\
  _bounds (snd (render flag v)) = _bounds v.
Proof.
  pose proof (render_outcomes flag v) as H. cbv zeta in H.
  destruct (fst (fst (for_each draw (geoms v ++ onetime_geoms v) (axes_for (_bounds v)))));
    rewrite H; repeat split.
Qed.

Lemma helper_keeps_config (geom0 : Geom) (attrs : gmap string PyVal) (v : Viewer) :
  let v' := snd (bind (lift (_add_attrs geom0 attrs))
                   (fun geom => bind (add_onetime geom) (fun _ => ret geom)) v) in
  width v' = width v /\ height v' = height v /\ dpi v' = dpi v /\
  _bounds v' = _bounds v.
Proof.
  destruct (register_styled geom0 attrs v) as [[H _]|(geom & _ & H)];
    cbv zeta in H |- *; rewrite H; repeat split.
Qed.

Lemma run_viewer_op_invariant (op : ViewerOp) (v : Viewer) :
  bounds_valid (_bounds v) ->
  let v' := run_viewer_op op v in
  bounds_valid (_bounds v') /\
  width v' = width v /\ height v' = height v /\ dpi v' = dpi v.
Proof.
  intros Hb.
  destruct op as [l r b t|g|g|f|radius res filled kw|pts filled kw|pts kw|p q kw];
    cbn [run_viewer_op]; cbv zeta.
  - unfold set_bounds, bind, assert_.
    destruct (Rgtb r l) eqn:E1; destruct (Rgtb t b) eqn:E2;
      cbn [andb snd]; try (split; [exact Hb | repeat split]).
    cbn [with_bounds _bounds width height dpi]. split; [|repeat split].
    apply Rgtb_true_iff in E1, E2. split; assumption.
  - split; [exact Hb | repeat split].
  - split; [exact Hb | repeat split].
  - destruct (render_keeps_config f v) as (Hw & Hh & Hd & Hbd).
    rewrite Hbd. split; [exact Hb | repeat split; assumption].
  - destruct (helper_keeps_config (make_circle radius res filled) kw v)
      as (Hw & Hh & Hd & Hbd).
    unfold draw_circle. cbv zeta. rewrite Hbd.
    split; [exact Hb | repeat split; assumption].
  - destruct (helper_keeps_config (make_polygon pts filled) kw v)
      as (Hw & Hh & Hd & Hbd).
    unfold draw_polygon. cbv zeta. rewrite Hbd.
    split; [exact Hb | repeat split; assumption].
  - destruct (helper_keeps_config (make_polyline pts) kw v)
      as (Hw & Hh & Hd & Hbd).
    unfold draw_polyline. cbv zeta. rewrite Hbd.
    split; [exact Hb | repeat split; assumption].
  - destruct (helper_keeps_config (PolyLine Geom_init [p; q] false) kw v)
      as (Hw & Hh & Hd & Hbd).
    unfold draw_line. cbv zeta. rewrite Hbd.
    split; [exact Hb | repeat split; assumption].
Qed.

(** X18.  In every state that a viewer reaches from its construction through
    any calls of [set_bounds], [add_geom], [add_onetime], [render] and the
    four [draw_*] helpers, whether the calls return or raise, the stored
    bounds satisfy [right > left] and [top > bottom], and the width, height
    and dpi are those of the construction. *)
Theorem viewer_bounds_always_valid (width0 height0 dpi0 : Z) (ops : list ViewerOp) :
  let v := run_viewer_ops ops (Viewer_init width0 height0 dpi0) in
  bounds_valid (_bounds v) /\
  width v = width0 /\ height v = height0 /\ dpi v = dpi0.
Proof.
  cbv zeta.
  assert (Hgen : forall v0,
             bounds_valid (_bounds v0) ->
             bounds_valid (_bounds (run_viewer_ops ops v0)) /\
             width (run_viewer_ops ops v0) = width v0 /\
             height (run_viewer_ops ops v0) = height v0 /\
             dpi (run_viewer_ops ops v0) = dpi v0).
  { induction ops as [|op ops IH]; intros v0 Hb; [repeat split; exact Hb|].
    change (run_viewer_ops (op :: ops) v0)
      with (run_viewer_ops ops (run_viewer_op op v0)).
    pose proof (run_viewer_op_invariant op v0 Hb) as Hop. cbv zeta in Hop.
    destruct Hop as (Hb' & Hw & Hh & Hd).
    destruct (IH (run_viewer_op op v0) Hb') as (Hb'' & Hw' & Hh' & Hd').
    split; [exact Hb''|]. split; [|split]; congruence. }
  apply Hgen. unfold Viewer_init, bounds_valid. cbn [_bounds]. lra.
Qed.

End MoreFrames.

Section MoreFramesWitness.

#[local] Existing Instance one_black_pixel.

Lemma render_axes_from_lists_and_bounds_witness :
  let v := snd (add_geom (make_circle 1 30 true) (Viewer_init 700 700 100)) in
  ax (snd (render true v)) = ax (snd (render false (snd (render true v)))).
Proof.
  intro v.
  refine (proj1 (render_axes_from_lists_and_bounds true false v (snd (render true v))
                   _ _ _)).
  - reflexivity.
  - reflexivity.
  - reflexivity.
Defined.

Lemma render_failure_keeps_lists_witness :
  let v := snd (add_onetime (Geom_ Geom_init) (Viewer_init 700 700 100)) in
  fst (render false v) = inl NotImplementedError /\
  onetime_geoms (snd (render false v)) = [Geom_ Geom_init].
Proof.
  intro v.
  destruct (render_failure_keeps_lists false v NotImplementedError eq_refl)
    as (H1 & _ & H3 & _).
  split; [exact H1 | exact H3].
Defined.

End MoreFramesWitness.

(** ** The image viewer *)

Section ImageViewer.

Context `{B : AggBackend} `{IB : AggImageBackend}.

(** X19.  [imshow] refuses an array that is not of shape (h, w, 3) before it
    touches the viewer: it raises ([ValueError] when the shape has not
    three entries, [AssertionError] when the last one is not 3) and the
    viewer, with the image it shows, is exactly as it was. *)
Theorem imshow_rejects_non_rgb (arr : Image) (self : SimpleImageViewer) :
  (forall h w, shape arr <> [h; w; 3%nat]) ->
  snd (imshow arr self) = self /\
  (fst (imshow arr self) = inl ShapeValueError \/
   fst (imshow arr self) = inl NotRGBAssertionError) /\
  (fst (imshow arr self) = inl NotRGBAssertionError <->
   exists h w c, shape arr = [h; w; c]).
Proof.
  intro Hshape. unfold imshow.
  destruct (shape arr) as [|h [|w [|c [|x l]]]] eqn:E;
    try (split; [reflexivity|]; split; [left; reflexivity|];
         split; [discriminate | intros (h' & w' & c' & H); discriminate H]).
  destruct (Nat.eqb_spec c 3) as [->|Hc]; [exfalso; apply (Hshape h w); reflexivity|].
  cbn [negb]. split; [reflexivity|]. split; [right; reflexivity|].
  split; [intros _; exists h, w, c; reflexivity | reflexivity].
Qed.







Lemma imshow_keeps_figure (arr : Image) (self : SimpleImageViewer) (f : ImFigure) :
  siv_figure self = Some f ->
  siv_figure (snd (imshow arr self)) = Some f /\
  isopen (snd (imshow arr self)) = isopen self.
Proof.
  intro Hf. unfold imshow.
  destruct (shape arr) as [|h [|w [|c [|x l]]]]; try (split; [exact Hf | reflexivity]).
  destruct (negb (c =? 3)%nat); [split; [exact Hf | reflexivity]|].
  rewrite Hf. destruct (siv_ax self) as [a|]; [|split; [exact Hf | reflexivity]].
  unfold imshow_finish, im_imshow. cbn [siv_ax].
  destruct (zero_size arr); cbn; [split; assumption || reflexivity|].
  destruct (siv_canvas self); cbn; split; assumption || reflexivity.
Qed.

Lemma run_im_ops_keeps_figure (ops : list ImOp) (self : SimpleImageViewer) (f : ImFigure) :
  siv_figure self = Some f -> siv_figure (run_im_ops ops self) = Some f.
Proof.
  revert self. induction ops as [|op ops IH]; intros self Hf; [exact Hf|].
  change (run_im_ops (op :: ops) self) with (run_im_ops ops (run_im_op op self)).
  apply IH. destruct op as [arr|]; cbn [run_im_op].
  - apply imshow_keeps_figure, Hf.
  - exact Hf.
Qed.

(* the first [imshow] creates the figure and opens the viewer before it
   hands the array to the axes *)
Lemma imshow_first (arr : Image) (h w : nat) :
  shape arr = [h; w; 3%nat] ->
  siv_figure (snd (imshow arr SimpleImageViewer_init))
  = Some (mkImFigure (INR w / 100, INR h / 100) 100) /\
  isopen (snd (imshow arr SimpleImageViewer_init)) = true.
Proof.
  intro Hs. unfold imshow. rewrite Hs. cbn [Nat.eqb negb SimpleImageViewer_init siv_figure].
  unfold imshow_finish, im_imshow. cbn [siv_ax].
  destruct (zero_size arr); cbn; split; reflexivity.
Qed.

(** X21.  The first image shown fixes the figure: after a first [imshow] of
    an array of shape (h, w, 3), the figure is (w / 100, h / 100) inches at
    100 dpi and stays so through every later [imshow] and [close], whatever
    the shapes of the later arrays. *)
Theorem figure_sized_by_first_image (arr : Image) (h w : nat) (ops : list ImOp) :
  shape arr = [h; w; 3%nat] ->
  siv_figure (run_im_ops (ImShow arr :: ops) SimpleImageViewer_init)
  = Some (mkImFigure (INR w / 100, INR h / 100) 100) /\
  isopen (run_im_ops [ImShow arr] SimpleImageViewer_init) = true.
Proof.
  intro Hs. destruct (imshow_first arr h w Hs) as (Hfig & Hopen).
  split.
  - change (run_im_ops (ImShow arr :: ops) SimpleImageViewer_init)
      with (run_im_ops ops (snd (imshow arr SimpleImageViewer_init))).
    apply run_im_ops_keeps_figure. exact Hfig.
  - exact Hopen.
Qed.

(** X22.  [imshow] opens the viewer only when it creates the figure: on a
    viewer that already has a figure, [imshow] leaves [isopen] as it is, so
    after [close] the viewer stays reported closed however many images are
    shown. *)
Theorem imshow_never_reopens (self : SimpleImageViewer) (f : ImFigure)
  (ops : list ImOp) :
  siv_figure self = Some f ->
  isopen (run_im_ops ops (SimpleImageViewer_close self)) = false.
Proof.
  intro Hf.
  assert (Hgen : forall s, siv_figure s = Some f -> isopen s = false ->
                           isopen (run_im_ops ops s) = false).
  { induction ops as [|op ops IH]; intros s Hs Ho; [exact Ho|].
    change (run_im_ops (op :: ops) s) with (run_im_ops ops (run_im_op op s)).
    destruct op as [arr|]; cbn [run_im_op].
    - destruct (imshow_keeps_figure arr s f Hs) as (Hf' & Ho').
      apply IH; [exact Hf' | rewrite Ho'; exact Ho].
    - apply IH; [exact Hs | reflexivity]. }
  apply Hgen; [exact Hf | reflexivity].
Qed.

End ImageViewer.

Section ImageViewerWitness.

#[local] Existing Instance one_black_pixel.
#[local] Existing Instance still_canvas.

Lemma imshow_rejects_non_rgb_witness :
  snd (imshow (mkImage [2; 2; 4]%nat []) SimpleImageViewer_init)
  = SimpleImageViewer_init.
Proof.
  apply (imshow_rejects_non_rgb (mkImage [2; 2; 4]%nat []) SimpleImageViewer_init).
  intros h w. cbn. discriminate.
Defined.


Lemma figure_sized_by_first_image_witness :
  siv_figure (run_im_ops [ImShow (mkImage [2; 1; 3]%nat []);
                          ImShow (mkImage [5; 7; 3]%nat [])]
                SimpleImageViewer_init)
  = Some (mkImFigure (INR 1 / 100, INR 2 / 100) 100).
Proof.
  apply (figure_sized_by_first_image (mkImage [2; 1; 3]%nat []) 2 1
           [ImShow (mkImage [5; 7; 3]%nat [])]).
  reflexivity.
Defined.

Lemma imshow_never_reopens_witness :
  isopen (run_im_ops [ImShow (mkImage [2; 1; 3]%nat [])]
            (SimpleImageViewer_close
               (mkSimpleImageViewer (Some (mkImFigure (1, 1) 100))
                  (Some (mkCanvas (1%nat, 1%nat) [])) (Some (mkImAxes false [])) true)))
  = false.
Proof.
  apply (imshow_never_reopens
           (mkSimpleImageViewer (Some (mkImFigure (1, 1) 100))
              (Some (mkCanvas (1%nat, 1%nat) [])) (Some (mkImAxes false [])) true)
           (mkImFigure (1, 1) 100)).
  reflexivity.
Defined.

End ImageViewerWitness.

(** ** More on the scenario loader *)

Section Loader.

Context `{RT : PyRuntime}.

(** X24.  A unit that raises while it is executed stays registered: when
    [exec_module] raises, [load] raises the same exception, and the entry
    that [load] made in [sys.modules] under the fresh name before the
    execution is still there, holding the module as the failed execution
    left it. *)
Theorem load_failure_leaves_module_registered (name : string) (st : Interp)
  (sp : ModuleSpec) (l : Loader) (e : Exn) (m' : PyModule) :
  osp_isfile (osp_join here name) = true ->
  spec_from_file_location (dynamic_name name (uuid_calls st)) (osp_join here name)
  = Some sp ->
  loader sp = Some l ->
  exec_module l (module_from_spec sp) = (inl e, m') ->
  fst (load name st) = inl e /\
  sys_modules (snd (load name st)) !! dynamic_name name (uuid_calls st) = Some m'.
Proof.
  unfold dynamic_name. intros Hf Hsp Hl He.
  unfold load. rewrite Hf. cbn [negb]. unfold bind, uuid4. cbn [uuid_calls].
  rewrite Hsp, Hl. unfold register, modify, run_module.
  cbn [sys_modules uuid_calls]. rewrite He. cbn [fst snd sys_modules].
  split; [reflexivity|].
  rewrite lookup_alter_eq, lookup_insert_eq. reflexivity.
Qed.

End Loader.

Section LoaderFailureWitness.

#[local] Existing Instance failing_scenario.

Lemma load_failure_leaves_module_registered_witness :
  fst (load "broken.py" (mkInterp ∅ 0)) = inl (ModuleError "boom") /\
  sys_modules (snd (load "broken.py" (mkInterp ∅ 0))) !! "_dynamic_broken_0a"%string
  = Some (mkPyModule "_dynamic_broken_0a" (<["half"%string := "done"%string]> ∅)).
Proof.
  refine (load_failure_leaves_module_registered "broken.py" (mkInterp ∅ 0)
            _ _ (ModuleError "boom") _ eq_refl eq_refl eq_refl eq_refl).
Defined.

End LoaderFailureWitness.

(** ** Outlines *)

Lemma transform_no_transforms (s : GeomState) (pts : list (R * R)) :
  transforms_of (attrs s) = [] ->
  mtransforms.transform (_collect_transform s) pts = pts.
Proof.
  intro H. unfold mtransforms.transform.
  rewrite <- (map_id pts) at 2. apply map_ext.
  intro p. apply collect_transform_no_transforms, H.
Qed.

(** X26.  A polyline or an unfilled polygon is stroked in the edge colour,
    not in the colour that was set: with colour (r, g, b, alpha) set on a
    PolyLine that carries no Transform, [draw] adds one line through the
    stored vertices (and back to the first one when closed), of stroke
    width 1, whose colour is half the clamped colour in every channel,
    alpha included. *)
Theorem polyline_stroked_in_half_color (v : list (R * R)) (close : bool)
  (r g b alpha : R) :
  v <> [] ->
  let geom := set_color r g b alpha (PolyLine Geom_init v close) in
  exists xs ys,
    own_artists geom
    = [Line2D xs ys 1
         (0.5 * _clamp01 r, 0.5 * _clamp01 g, 0.5 * _clamp01 b, 0.5 * _clamp01 alpha)] /\
    combine xs ys = (if close then v ++ [hd (0, 0) v] else v).
Proof.
  intros Hv geom. subst geom. unfold set_color. cbn [with_state].
  set (s := mkGeomState _ _ _).
  exists (map fst (polyline_points s v close)), (map snd (polyline_points s v close)).
  split.
  - unfold own_artists. cbn [draw]. rewrite PolyLine_draw_nonempty by exact Hv.
    reflexivity.
  - rewrite combine_fst_snd. unfold polyline_points.
    apply transform_no_transforms. reflexivity.
Qed.

Lemma polyline_stroked_in_half_color_witness :
  exists xs ys,
    own_artists (set_color 1 0 0 1 (make_polygon [(0, 0); (1, 0); (1, 1)] false))
    = [Line2D xs ys 1
         (0.5 * _clamp01 1, 0.5 * _clamp01 0, 0.5 * _clamp01 0, 0.5 * _clamp01 1)] /\
    combine xs ys = [(0, 0); (1, 0); (1, 1); (0, 0)].
Proof.
  apply (polyline_stroked_in_half_color [(0, 0); (1, 0); (1, 1)] true 1 0 0 1).
  discriminate.
Defined.

(** ** Witnesses of the properties above *)

Lemma Color_init_clamps_witness :
  _clamp01 (-0.2) = 0 /\ _clamp01 1.5 = 1 /\ _clamp01 0.5 = 0.5.
Proof.
  destruct (Color_init_clamps 0 0 0 0) as (_ & _ & Hlow & Hhigh & Hin).
  split; [apply Hlow; lra|]. split; [apply Hhigh; lra | apply Hin; lra].
Defined.

Lemma effective_transform_ignores_styling_witness :
  effective_point (add_attr (ALineWidth (LineWidth_init 2)) scaled_then_translated) (1, 1)
  = effective_point scaled_then_translated (1, 1).
Proof.
  destruct (effective_transform_ignores_styling scaled_then_translated (1, 1))
    as (_ & _ & H).
  apply H. reflexivity.
Defined.
